(** * Course-registration validation (refactor_solid.py)

    A shallow embedding of the rule pipeline of [refactor_solid.py] and the
    properties of its three rules and of [RegistrationService.validate].

    The Python code works on a dynamically typed [dict]; the embedding keeps
    that: the record is a [pyval], every subscript may raise [KeyError] or
    [TypeError], and the statically typed view [StudentData] is obtained by
    decoding ([as_record]).  Logging and the record live in an explicit
    [World] threaded through a state-and-exception monad [M]. *)

From stdpp Require Import base strings list gmap.
From Stdlib Require Import ZArith.

Local Open Scope Z_scope.
Local Open Scope string_scope.
Local Open Scope list_scope.

(** ** Python values *)

(** The fragment of Python values the program handles: [int], [str], [list]
    and [dict] with string keys.  A [dict] is kept as an association list in
    insertion order; its keys are meant to be pairwise distinct. *)
#[warnings="-register-all"]
Inductive pyval : Type :=
  | VInt (n : Z)
  | VStr (s : string)
  | VList (xs : list pyval)
  | VDict (items : list (string * pyval)).

Inductive exn : Type :=
  | KeyError (key : string)
  | TypeError.

(** [d.get(k)] on the association list. *)
Fixpoint dict_get (d : list (string * pyval)) (k : string) : option pyval :=
  match d with
  | [] => None
  | (k', v) :: d' => if decide (k' = k) then Some v else dict_get d' k
  end.

(** Python's [==] on this fragment: structural, never raising; lists are
    compared element-wise and dicts as maps. *)
Fixpoint py_eq (a b : pyval) : bool :=
  match a, b with
  | VInt m, VInt n => bool_decide (m = n)
  | VStr s, VStr t => bool_decide (s = t)
  | VList xs, VList ys =>
      (fix go (xs ys : list pyval) : bool :=
         match xs, ys with
         | [], [] => true
         | x :: xs', y :: ys' => py_eq x y && go xs' ys'
         | _, _ => false
         end) xs ys
  | VDict d, VDict e =>
      bool_decide (length d = length e) &&
      (fix go (d : list (string * pyval)) : bool :=
         match d with
         | [] => true
         | (k, v) :: d' =>
             match dict_get e k with
             | Some v' => py_eq v v'
             | None => false
             end && go d'
         end) d
  | _, _ => false
  end.
Arguments py_eq !a !b.

(** The one-character strings of a string, as [for c in s] yields them. *)
Fixpoint chars (s : string) : list string :=
  match s with
  | EmptyString => []
  | String a s' => String a EmptyString :: chars s'
  end.

(** [c in s] for two strings: [c] occurs in [s] as a substring. *)
Fixpoint substring_of (c s : string) : bool :=
  String.prefix c s ||
  match s with
  | EmptyString => false
  | String _ s' => substring_of c s'
  end.

(** ** The world: the record object and the emitted log records *)

Inductive levelname : Type := INFO | WARNING | ERROR.

(** A log record as [logging] keeps it: level, format string and the
    arguments still to be merged into it. *)
Record LogRecord : Type := mkLogRecord {
  level : levelname;
  msg : string;
  args : list pyval
}.

(** [data] is the dict object every [validate(self, data)] receives a
    reference to; [emitted] are the records handed to [LOGGER], oldest first;
    [calls] is ghost instrumentation: the class names of the rules whose
    [validate] was invoked by the service, oldest first. *)
Record World : Type := mkWorld {
  data : pyval;
  emitted : list LogRecord;
  calls : list string
}.

Inductive outcome (A : Type) : Type :=
  | Return (a : A)
  | Raise (e : exn).
Arguments Return {A} a.
Arguments Raise {A} e.

(** State and exceptions; a raised exception keeps the effects so far. *)
Definition M (A : Type) : Type := World → outcome A * World.

#[global] Instance M_ret : MRet M := λ A a w, (Return a, w).

#[global] Instance M_bind : MBind M := λ A B f m w,
  match m w with
  | (Return a, w') => f a w'
  | (Raise e, w') => (Raise e, w')
  end.

Definition raise {A : Type} (e : exn) : M A := λ w, (Raise e, w).

(** Dereference of the parameter [data]. *)
Definition deref_data : M pyval := λ w, (Return (data w), w).

Definition emit (r : LogRecord) : M unit := λ w,
  (Return tt, mkWorld (data w) (emitted w ++ [r]) (calls w)).

Definition LOGGER_info (m : string) (a : list pyval) : M unit :=
  emit (mkLogRecord INFO m a).
Definition LOGGER_warning (m : string) (a : list pyval) : M unit :=
  emit (mkLogRecord WARNING m a).
Definition LOGGER_error (m : string) (a : list pyval) : M unit :=
  emit (mkLogRecord ERROR m a).

(** ** Python operations used by the rules *)

(** [v[k]] for a string key [k]. *)
Definition getitem (v : pyval) (k : string) : M pyval :=
  match v with
  | VDict d =>
      match dict_get d k with
      | Some x => mret x
      | None => raise (KeyError k)
      end
  | _ => raise TypeError
  end.

(** [data[k]]. *)
Definition data_getitem (k : string) : M pyval :=
  d ← deref_data; getitem d k.

(** [v <= n] for an [int] bound [n]. *)
Definition py_le (v : pyval) (n : Z) : M bool :=
  match v with
  | VInt m => mret (bool_decide (m ≤ n)%Z)
  | _ => raise TypeError
  end.

(** The items [for x in v] runs over. *)
Definition py_iter (v : pyval) : M (list pyval) :=
  match v with
  | VList xs => mret xs
  | VStr s => mret (VStr <$> chars s)
  | VDict d => mret (VStr <$> d.*1)
  | VInt _ => raise TypeError
  end.

(** [x in v]. *)
Definition py_contains (v x : pyval) : M bool :=
  match v with
  | VList ys => mret (existsb (py_eq x) ys)
  | VStr s =>
      match x with
      | VStr c => mret (substring_of c s)
      | _ => raise TypeError
      end
  | VDict d =>
      match x with
      | VStr k => mret (bool_decide (is_Some (dict_get d k)))
      | VInt _ => mret false
      | _ => raise TypeError
      end
  | VInt _ => raise TypeError
  end.

(** ** The rules *)

(** An object implementing [IValidationRule]: its class and its bound
    [validate] method ([data] being the record of the world). *)
Record IValidationRule : Type := mkRule {
  class_name : string;
  validate : M bool
}.

(** [SksLimitRule.validate]; [max_sks] is [self.max_sks]. *)
Definition SksLimitRule_validate (max_sks : Z) : M bool :=
  sks ← data_getitem "sks";
  ok ← py_le sks max_sks;
  if (ok : bool) then
    a ← data_getitem "sks";
    LOGGER_info "SKS %s tidak melebihi batas %s." [a; VInt max_sks];;
    mret true
  else
    a ← data_getitem "sks";
    LOGGER_error "SKS %s melebihi batas maksimum %s." [a; VInt max_sks];;
    mret false.

Definition SksLimitRule (max_sks : Z) : IValidationRule :=
  mkRule "SksLimitRule" (SksLimitRule_validate max_sks).

(** [[x for x in xs if keep x]] with a condition that may raise. *)
Fixpoint comprehension (keep : pyval → M bool) (xs : list pyval)
    : M (list pyval) :=
  match xs with
  | [] => mret []
  | x :: xs' =>
      k ← keep x;
      rest ← comprehension keep xs';
      mret (if (k : bool) then x :: rest else rest)
  end.

(** The list [missing] of [PrerequisiteRule.validate]:
    [[course for course in data["prasyarat"]
             if course not in data["sudah_lulus"]]]. *)
Definition PrerequisiteRule_missing : M (list pyval) :=
  prasyarat ← data_getitem "prasyarat";
  courses ← py_iter prasyarat;
  comprehension
    (λ course,
       sudah_lulus ← data_getitem "sudah_lulus";
       found ← py_contains sudah_lulus course;
       mret (negb found))
    courses.

(** Truth value of a list: [not missing] holds exactly for the empty list. *)
Definition py_not_list (l : list pyval) : bool :=
  match l with [] => true | _ :: _ => false end.

Definition PrerequisiteRule_validate : M bool :=
  missing ← PrerequisiteRule_missing;
  if py_not_list missing then
    LOGGER_info "Semua prasyarat telah terpenuhi." [];;
    mret true
  else
    LOGGER_warning "Prasyarat belum terpenuhi: %s" [VList missing];;
    mret false.

Definition PrerequisiteRule : IValidationRule :=
  mkRule "PrerequisiteRule" PrerequisiteRule_validate.

(** The [for item in ...] loop of [JadwalBentrokRule.validate]: [Some false]
    stands for the [return False] inside the loop, [None] for falling out of
    the loop.  The [and] evaluates [item["jam"]] only when the days agree. *)
Fixpoint JadwalBentrokRule_scan (hari jam : pyval) (items : list pyval)
    : M (option bool) :=
  match items with
  | [] => mret None
  | item :: items' =>
      h ← getitem item "hari";
      hit ← (if py_eq h hari
             then j ← getitem item "jam"; mret (py_eq j jam)
             else mret false);
      if (hit : bool) then
        LOGGER_error "Jadwal bentrok dengan mata kuliah lain!" [];;
        mret (Some false)
      else JadwalBentrokRule_scan hari jam items'
  end.

Definition JadwalBentrokRule_validate : M bool :=
  jadwal ← data_getitem "jadwal";
  hari ← getitem jadwal "hari";
  jam ← getitem jadwal "jam";
  terambil ← data_getitem "jadwal_terambil";
  items ← py_iter terambil;
  r ← JadwalBentrokRule_scan hari jam items;
  match r with
  | Some b => mret b
  | None =>
      LOGGER_info "Tidak ada bentrok jadwal." [];;
      mret true
  end.

Definition JadwalBentrokRule : IValidationRule :=
  mkRule "JadwalBentrokRule" JadwalBentrokRule_validate.

(** ** The service *)

Record RegistrationService : Type := mkService {
  rules : list IValidationRule
}.

(** The method call [rule.validate(data)], recording the call in the ghost
    trace before the body runs. *)
Definition invoke (rule : IValidationRule) : M bool := λ w,
  validate rule (mkWorld (data w) (emitted w) (calls w ++ [class_name rule])).

(** The loop [for rule in self.rules] with what follows it. *)
Fixpoint RegistrationService_loop (rs : list IValidationRule) : M bool :=
  match rs with
  | [] =>
      LOGGER_info "Registrasi berhasil." [];;
      mret true
  | rule :: rs' =>
      ok ← invoke rule;
      if negb ok then
        LOGGER_error "Registrasi gagal." [];;
        mret false
      else RegistrationService_loop rs'
  end.

Definition RegistrationService_validate (self : RegistrationService) : M bool :=
  LOGGER_info "=== Menjalankan Validasi Registrasi ===" [];;
  RegistrationService_loop (rules self).

(** ** The statically typed view of a well-formed record *)

Record Slot : Type := mkSlot { hari : string; jam : string }.

Record StudentData : Type := mkStudentData {
  sks : Z;
  prasyarat : list string;
  sudah_lulus : list string;
  jadwal : Slot;
  jadwal_terambil : list Slot
}.

Definition slot_to_py (s : Slot) : pyval :=
  VDict [("hari", VStr (hari s)); ("jam", VStr (jam s))].

Definition to_py (r : StudentData) : pyval :=
  VDict [("sks", VInt (sks r));
         ("prasyarat", VList (VStr <$> prasyarat r));
         ("sudah_lulus", VList (VStr <$> sudah_lulus r));
         ("jadwal", slot_to_py (jadwal r));
         ("jadwal_terambil", VList (slot_to_py <$> jadwal_terambil r))].

Definition as_int (v : pyval) : option Z :=
  match v with VInt n => Some n | _ => None end.

Definition as_str (v : pyval) : option string :=
  match v with VStr s => Some s | _ => None end.

Definition as_list {A : Type} (f : pyval → option A) (v : pyval)
    : option (list A) :=
  match v with VList xs => mapM f xs | _ => None end.

Definition as_dict (v : pyval) : option (list (string * pyval)) :=
  match v with VDict d => Some d | _ => None end.

Definition as_slot (v : pyval) : option Slot :=
  d ← as_dict v;
  h ← dict_get d "hari" ≫= as_str;
  j ← dict_get d "jam" ≫= as_str;
  Some (mkSlot h j).

(** A dict is a well-formed record when it has the five fields with the
    types of the data model (further keys are allowed); [as_record] then
    reads them off. *)
Definition as_record (v : pyval) : option StudentData :=
  d ← as_dict v;
  s ← dict_get d "sks" ≫= as_int;
  p ← dict_get d "prasyarat" ≫= as_list as_str;
  l ← dict_get d "sudah_lulus" ≫= as_list as_str;
  j ← dict_get d "jadwal" ≫= as_slot;
  t ← dict_get d "jadwal_terambil" ≫= as_list as_slot;
  Some (mkStudentData s p l j t).

Definition well_formed (v : pyval) : Prop := is_Some (as_record v).

(** ** The program's entry point *)

Definition student_data : StudentData :=
  mkStudentData 20 ["Algoritma"; "Struktur Data"] ["Algoritma"]
    (mkSlot "Senin" "08:00") [mkSlot "Senin" "08:00"].

Definition main_rules : list IValidationRule :=
  [SksLimitRule 24; PrerequisiteRule; JadwalBentrokRule].

Definition service : RegistrationService := mkService main_rules.

(** The world when [service.validate(student_data)] is called. *)
Definition world0 : World := mkWorld (to_py student_data) [] [].

Definition main : outcome bool * World :=
  RegistrationService_validate service world0.

(** ** Vocabulary of the specification *)

(** [logged w l] is [w] after the records [l] were emitted and nothing else
    happened. *)
Definition logged (w : World) (l : list LogRecord) : World :=
  mkWorld (data w) (emitted w ++ l) (calls w).

(** What a well-formed record looks like as a [dict]. *)
Record decodes (d : list (string * pyval)) (r : StudentData) : Prop := {
  dec_sks : dict_get d "sks" = Some (VInt (sks r));
  dec_prasyarat :
    dict_get d "prasyarat" = Some (VList (VStr <$> prasyarat r));
  dec_sudah_lulus :
    dict_get d "sudah_lulus" = Some (VList (VStr <$> sudah_lulus r));
  dec_jadwal :
    ∃ j, dict_get d "jadwal" = Some j ∧ as_slot j = Some (jadwal r);
  dec_jadwal_terambil :
    ∃ ts, dict_get d "jadwal_terambil" = Some (VList ts)
          ∧ mapM as_slot ts = Some (jadwal_terambil r)
}.

(** [observes m]: the outcome of [m] and the log records it emits are a
    function of the record alone, and [m] does nothing but emit them: the
    record and the call trace are left as they were. *)
Definition observes {A : Type} (m : M A) : Prop :=
  ∀ d, ∃ o l, ∀ es cs, m (mkWorld d es cs) = (o, mkWorld d (es ++ l) cs).

(** [returns rule d b]: called on the record [d], [rule.validate] returns
    [b], its only effect being the emission of log records. *)
Definition returns (rule : IValidationRule) (d : pyval) (b : bool) : Prop :=
  ∃ l, ∀ es cs,
    validate rule (mkWorld d es cs) = (Return b, mkWorld d (es ++ l) cs).

(** The rule objects the program can build. *)
Definition builtin (rule : IValidationRule) : Prop :=
  (∃ max_sks, rule = SksLimitRule max_sks)
  ∨ rule = PrerequisiteRule
  ∨ rule = JadwalBentrokRule.

(** How often [c] occurs in [l]. *)
Definition occurrences (c : string) (l : list string) : nat :=
  length (filter (λ x, x = c) l).

(** The warning record [PrerequisiteRule] emits for the list [missing]. *)
Definition missing_warning (missing : list string) : LogRecord :=
  mkLogRecord WARNING "Prasyarat belum terpenuhi: %s"
    [VList (VStr <$> missing)].

(** The records the service emits. *)
Definition banner : LogRecord :=
  mkLogRecord INFO "=== Menjalankan Validasi Registrasi ===" [].

Definition success_info : LogRecord :=
  mkLogRecord INFO "Registrasi berhasil." [].

Definition failure_error : LogRecord :=
  mkLogRecord ERROR "Registrasi gagal." [].

(** The taken slot [t] clashes with the requested slot [s]: same day and
    same time, as strings. *)
Definition conflict (s t : Slot) : Prop :=
  hari t = hari s ∧ jam t = jam s.

#[global] Instance conflict_dec (s t : Slot) : Decision (conflict s t) :=
  and_dec (decide (hari t = hari s)) (decide (jam t = jam s)).

Definition conflict_error : LogRecord :=
  mkLogRecord ERROR "Jadwal bentrok dengan mata kuliah lain!" [].

Definition no_conflict_info : LogRecord :=
  mkLogRecord INFO "Tidak ada bentrok jadwal." [].

(** Two ill-formed records: an entry that is not a dict stands after,
    respectively before, the entry that clashes with the requested slot. *)
Definition world_junk_after_clash : World :=
  mkWorld
    (VDict [("jadwal", slot_to_py (mkSlot "Senin" "08:00"));
            ("jadwal_terambil",
             VList [slot_to_py (mkSlot "Selasa" "08:00");
                    slot_to_py (mkSlot "Senin" "08:00");
                    VInt 7])]) [] [].

Definition world_junk_before_clash : World :=
  mkWorld
    (VDict [("jadwal", slot_to_py (mkSlot "Senin" "08:00"));
            ("jadwal_terambil",
             VList [VInt 7; slot_to_py (mkSlot "Senin" "08:00")])]) [] [].

(** [silent m]: [m] leaves the world as it finds it. *)
Definition silent {A : Type} (m : M A) : Prop := ∀ w, (m w).2 = w.

(** [raises_cleanly m]: when [m] raises, the world is as it was before. *)
Definition raises_cleanly {A : Type} (m : M A) : Prop :=
  ∀ w e w', m w = (Raise e, w') → w' = w.

Definition never_raises {A : Type} (m : M A) : Prop :=
  ∀ w, ∃ a w', m w = (Return a, w').

(** [raises rule d e l]: called on the record [d], [rule.validate] raises
    [e], having emitted the records [l] and done nothing else. *)
Definition raises (rule : IValidationRule) (d : pyval) (e : exn)
    (l : list LogRecord) : Prop :=
  ∀ es cs,
    validate rule (mkWorld d es cs) = (Raise e, mkWorld d (es ++ l) cs).

(** The record the service closes a run with. *)
Definition closing_record (b : bool) : LogRecord :=
  if b then success_info else failure_error.

(** A record that has nothing but its credit load. *)
Definition world_sks_only : World := mkWorld (VDict [("sks", VInt 20)]) [] [].

(** A record whose only taken slot is on another day and has no time. *)
Definition world_taken_without_jam : World :=
  mkWorld
    (VDict [("jadwal", slot_to_py (mkSlot "Senin" "08:00"));
            ("jadwal_terambil", VList [VDict [("hari", VStr "Selasa")]])])
    [] [].

(** The taken entry [item] is a dict whose day is a string other than the
    requested day; nothing is said about its time. *)
Definition on_other_day (s : Slot) (item : pyval) : Prop :=
  ∃ di h, item = VDict di ∧ dict_get di "hari" = Some (VStr h) ∧ h ≠ hari s.

(** ** Reasoning about [M] *)

Lemma logged_nil w : logged w [] = w.
Proof. destruct w; unfold logged; simpl. by rewrite app_nil_r. Qed.

Lemma logged_logged w l1 l2 : logged (logged w l1) l2 = logged w (l1 ++ l2).
Proof. unfold logged; simpl. by rewrite app_assoc. Qed.

Lemma data_logged w l : data (logged w l) = data w.
Proof. done. Qed.

Lemma bind_Return {A B} (m : M A) (k : A → M B) w a w' :
  m w = (Return a, w') → (m ≫= k) w = k a w'.
Proof. unfold mbind, M_bind. by intros ->. Qed.

Lemma bind_Raise {A B} (m : M A) (k : A → M B) w e w' :
  m w = (Raise e, w') → (m ≫= k) w = (Raise e, w').
Proof. unfold mbind, M_bind. by intros ->. Qed.

Lemma mret_run {A} (a : A) w : (mret a : M A) w = (Return a, w).
Proof. done. Qed.

Lemma emit_run r w : emit r w = (Return tt, logged w [r]).
Proof. done. Qed.

Lemma data_getitem_run w d k v :
  data w = VDict d → dict_get d k = Some v →
  data_getitem k w = (Return v, w).
Proof.
  intros Hd Hk. unfold data_getitem.
  erewrite bind_Return by reflexivity.
  simpl. rewrite Hd. simpl. by rewrite Hk.
Qed.

(** ** Decoding *)

Lemma as_list_str_inv v l :
  as_list as_str v = Some l → v = VList (VStr <$> l).
Proof.
  destruct v as [| |xs|]; try done. simpl. intros H. f_equal.
  symmetry. eapply mapM_fmap_Some_inv; [done|].
  by intros [] ?; simpl; intros; simplify_eq.
Qed.

Lemma as_slot_inv v s :
  as_slot v = Some s →
  ∃ d, v = VDict d ∧ dict_get d "hari" = Some (VStr (hari s))
       ∧ dict_get d "jam" = Some (VStr (jam s)).
Proof.
  destruct v as [| | |d]; try done. unfold as_slot. simpl.
  destruct (dict_get d "hari") as [[|h| |]|] eqn:Hh; try done.
  destruct (dict_get d "jam") as [[|j| |]|] eqn:Hj; try done.
  simpl. intros [= <-]. eauto.
Qed.

Lemma as_record_inv v r :
  as_record v = Some r → ∃ d, v = VDict d ∧ decodes d r.
Proof.
  destruct v as [| | |d]; try done. unfold as_record. simpl.
  destruct (dict_get d "sks") as [[n| | |]|] eqn:Hs; try done. simpl.
  destruct (dict_get d "prasyarat") as [p|] eqn:Hp; try done. simpl.
  destruct (as_list as_str p) as [ps|] eqn:Hps; try done. simpl.
  destruct (dict_get d "sudah_lulus") as [l|] eqn:Hl; try done. simpl.
  destruct (as_list as_str l) as [ls|] eqn:Hls; try done. simpl.
  destruct (dict_get d "jadwal") as [j|] eqn:Hj; try done. simpl.
  destruct (as_slot j) as [js|] eqn:Hjs; try done. simpl.
  destruct (dict_get d "jadwal_terambil") as [[| |ts|]|] eqn:Ht; try done.
  simpl. destruct (mapM as_slot ts) as [tss|] eqn:Hts; try done. simpl.
  intros [= <-]. exists d. split; [done|].
  apply as_list_str_inv in Hps as ->. apply as_list_str_inv in Hls as ->.
  split; simpl; eauto.
Qed.

Lemma as_record_to_py r : as_record (to_py r) = Some r.
Proof.
  destruct r as [s p l [h j] t]. unfold as_record, to_py. simpl.
  rewrite (mapM_fmap_Some as_str VStr p) by done. simpl.
  rewrite (mapM_fmap_Some as_str VStr l) by done. simpl.
  rewrite (mapM_fmap_Some as_slot slot_to_py t); [done|]. by intros [].
Qed.

(** ** The interface contract *)

Lemma observes_run {A} (m : M A) w :
  observes m → ∃ o l, m w = (o, logged w l).
Proof.
  intros Hm. destruct (Hm (data w)) as (o & l & H).
  exists o, l. destruct w as [d es cs]. apply H.
Qed.

Lemma observes_mret {A} (a : A) : observes (mret a : M A).
Proof. intros d. exists (Return a), []. intros. by rewrite app_nil_r. Qed.

Lemma observes_raise {A} e : observes (raise e : M A).
Proof. intros d. exists (Raise e), []. intros. by rewrite app_nil_r. Qed.

Lemma observes_bind {A B} (m : M A) (k : A → M B) :
  observes m → (∀ a, observes (k a)) → observes (m ≫= k).
Proof.
  intros Hm Hk d. destruct (Hm d) as ([a|e] & l & H).
  - destruct (Hk a d) as (o & l' & H'). exists o, (l ++ l'). intros es cs.
    erewrite bind_Return by apply H. rewrite H'. by rewrite app_assoc.
  - exists (Raise e), l. intros es cs. by erewrite bind_Raise by apply H.
Qed.

Lemma observes_deref_data : observes deref_data.
Proof. intros d. exists (Return d), []. intros. by rewrite app_nil_r. Qed.

Lemma observes_emit r : observes (emit r).
Proof. intros d. by exists (Return tt), [r]. Qed.

Lemma observes_getitem v k : observes (getitem v k).
Proof.
  destruct v as [| | |d]; simpl; try apply observes_raise.
  destruct (dict_get d k); [apply observes_mret | apply observes_raise].
Qed.

Lemma observes_py_le v n : observes (py_le v n).
Proof. destruct v; simpl; first [apply observes_mret | apply observes_raise]. Qed.

Lemma observes_py_iter v : observes (py_iter v).
Proof. destruct v; simpl; first [apply observes_mret | apply observes_raise]. Qed.

Lemma observes_py_contains v x : observes (py_contains v x).
Proof.
  destruct v, x; simpl; first [apply observes_mret | apply observes_raise].
Qed.

Create HintDb observes.
#[local] Hint Resolve observes_mret observes_raise observes_deref_data
  observes_emit observes_getitem observes_py_le observes_py_iter
  observes_py_contains : observes.

Ltac observes_step :=
  first [ apply observes_bind; [|intros ?]
        | progress unfold data_getitem, LOGGER_info, LOGGER_warning,
            LOGGER_error
        | match goal with |- observes (if ?b then _ else _) => destruct b end
        | match goal with
          | |- observes (match ?o with Some _ => _ | None => _ end) =>
              destruct o
          end
        | solve [auto with observes] ].

Lemma observes_comprehension keep xs :
  (∀ x, observes (keep x)) → observes (comprehension keep xs).
Proof. intros Hk. induction xs as [|x xs IH]; simpl; repeat observes_step. Qed.

Lemma observes_scan h j items : observes (JadwalBentrokRule_scan h j items).
Proof. induction items as [|x xs IH]; simpl; repeat observes_step. Qed.

#[local] Hint Resolve observes_comprehension observes_scan : observes.

Lemma observes_SksLimitRule max_sks : observes (SksLimitRule_validate max_sks).
Proof. unfold SksLimitRule_validate. repeat observes_step. Qed.

Lemma observes_missing : observes PrerequisiteRule_missing.
Proof.
  unfold PrerequisiteRule_missing. repeat observes_step.
  apply observes_comprehension. intros x. repeat observes_step.
Qed.

Lemma observes_PrerequisiteRule : observes PrerequisiteRule_validate.
Proof.
  unfold PrerequisiteRule_validate.
  apply observes_bind; [apply observes_missing|]. intros ?.
  repeat observes_step.
Qed.

Lemma observes_JadwalBentrokRule : observes JadwalBentrokRule_validate.
Proof. unfold JadwalBentrokRule_validate. repeat observes_step. Qed.

Lemma builtin_observes rule : builtin rule → observes (validate rule).
Proof.
  intros [[m ->]|[->| ->]]; simpl;
    auto using observes_SksLimitRule, observes_PrerequisiteRule,
      observes_JadwalBentrokRule.
Qed.

(** ** SksLimitRule *)

Lemma SksLimitRule_run max_sks w r :
  as_record (data w) = Some r →
  SksLimitRule_validate max_sks w =
    if bool_decide (sks r ≤ max_sks)%Z
    then (Return true,
          logged w [mkLogRecord INFO "SKS %s tidak melebihi batas %s."
                      [VInt (sks r); VInt max_sks]])
    else (Return false,
          logged w [mkLogRecord ERROR "SKS %s melebihi batas maksimum %s."
                      [VInt (sks r); VInt max_sks]]).
Proof.
  intros (d & Hd & Hr)%as_record_inv. destruct Hr as [Hs _ _ _ _].
  unfold SksLimitRule_validate.
  erewrite bind_Return by (by eapply data_getitem_run).
  erewrite bind_Return by reflexivity.
  destruct (bool_decide _);
    erewrite bind_Return by (by eapply data_getitem_run);
    by erewrite bind_Return by apply emit_run.
Qed.

(** C4: with the bound [max_sks] fixed at construction, [SksLimitRule]
    returns true on every record whose [sks] is at most [max_sks] (the
    boundary included) and false on every record whose [sks] exceeds it; it
    emits one INFO, respectively ERROR, record carrying both values and
    changes nothing else. *)
Theorem SksLimitRule_validate_spec (max_sks : Z) (w : World)
    (r : StudentData) :
  as_record (data w) = Some r →
  ((sks r ≤ max_sks)%Z →
     SksLimitRule_validate max_sks w =
       (Return true,
        logged w [mkLogRecord INFO "SKS %s tidak melebihi batas %s."
                    [VInt (sks r); VInt max_sks]]))
  ∧ ((sks r > max_sks)%Z →
     SksLimitRule_validate max_sks w =
       (Return false,
        logged w [mkLogRecord ERROR "SKS %s melebihi batas maksimum %s."
                    [VInt (sks r); VInt max_sks]]))
  ∧ ((sks r = max_sks)%Z →
     (SksLimitRule_validate max_sks w).1 = Return true).
Proof.
  intros Hr. rewrite (SksLimitRule_run _ _ _ Hr).
  split; [|split]; intros H.
  - by rewrite bool_decide_eq_true_2.
  - by rewrite bool_decide_eq_false_2 by lia.
  - by rewrite bool_decide_eq_true_2 by lia.
Qed.

Lemma SksLimitRule_validate_spec_witness :
  SksLimitRule_validate 24 world0 =
    (Return true,
     logged world0 [mkLogRecord INFO "SKS %s tidak melebihi batas %s."
                      [VInt 20; VInt 24]])
  ∧ SksLimitRule_validate 24 (mkWorld (to_py (mkStudentData 30 [] []
        (mkSlot "Senin" "08:00") [])) [] []) =
    (Return false,
     mkWorld (to_py (mkStudentData 30 [] [] (mkSlot "Senin" "08:00") []))
       [mkLogRecord ERROR "SKS %s melebihi batas maksimum %s."
          [VInt 30; VInt 24]] []).
Proof.
  split.
  - apply (SksLimitRule_validate_spec 24 world0 student_data);
      [reflexivity | simpl; lia].
  - apply (SksLimitRule_validate_spec 24
             (mkWorld (to_py (mkStudentData 30 [] []
                (mkSlot "Senin" "08:00") [])) [] [])
             (mkStudentData 30 [] [] (mkSlot "Senin" "08:00") []));
      [reflexivity | simpl; lia].
Defined.

(** ** PrerequisiteRule *)

Lemma existsb_py_eq_str c l :
  existsb (py_eq (VStr c)) (VStr <$> l) = bool_decide (c ∈ l).
Proof.
  induction l as [|x l IH].
  - symmetry. apply bool_decide_eq_false_2. set_solver.
  - rewrite fmap_cons.
    change (existsb (py_eq (VStr c)) (VStr x :: (VStr <$> l)))
      with (bool_decide (c = x) || existsb (py_eq (VStr c)) (VStr <$> l)).
    rewrite IH. destruct (decide (c = x)) as [->|Hne].
    + rewrite bool_decide_eq_true_2 by done. simpl. symmetry.
      apply bool_decide_eq_true_2. by left.
    + rewrite (bool_decide_eq_false_2 (c = x)) by done. simpl.
      apply bool_decide_ext. rewrite elem_of_cons. tauto.
Qed.

Lemma comprehension_not_in_run w d lulus courses :
  data w = VDict d →
  dict_get d "sudah_lulus" = Some (VList (VStr <$> lulus)) →
  comprehension
    (λ course,
       sudah_lulus ← data_getitem "sudah_lulus";
       found ← py_contains sudah_lulus course;
       mret (negb found))
    (VStr <$> courses) w
  = (Return (VStr <$> filter (λ c, c ∉ lulus) courses), w).
Proof.
  intros Hd Hl. induction courses as [|c cs IH]; [done|].
  rewrite fmap_cons. simpl.
  erewrite bind_Return; last first.
  { erewrite bind_Return by (by eapply data_getitem_run).
    simpl. erewrite bind_Return by reflexivity. reflexivity. }
  erewrite bind_Return by apply IH.
  rewrite mret_run, existsb_py_eq_str, filter_cons.
  case_bool_decide; simpl.
  - by rewrite decide_False by auto.
  - by rewrite decide_True by auto.
Qed.

Lemma PrerequisiteRule_missing_run w r :
  as_record (data w) = Some r →
  PrerequisiteRule_missing w =
    (Return (VStr <$> filter (λ c, c ∉ sudah_lulus r) (prasyarat r)), w).
Proof.
  intros (d & Hd & Hr)%as_record_inv. destruct Hr as [_ Hp Hl _ _].
  unfold PrerequisiteRule_missing.
  erewrite bind_Return by (by eapply data_getitem_run).
  erewrite bind_Return by reflexivity.
  by apply comprehension_not_in_run with d.
Qed.

Lemma PrerequisiteRule_run w r :
  as_record (data w) = Some r →
  PrerequisiteRule_validate w =
    match filter (λ c, c ∉ sudah_lulus r) (prasyarat r) with
    | [] =>
        (Return true,
         logged w [mkLogRecord INFO "Semua prasyarat telah terpenuhi." []])
    | c :: cs => (Return false, logged w [missing_warning (c :: cs)])
    end.
Proof.
  intros Hr. unfold PrerequisiteRule_validate.
  erewrite bind_Return by (by apply PrerequisiteRule_missing_run).
  destruct (filter _ _) as [|c cs]; simpl;
    by erewrite bind_Return by apply emit_run.
Qed.

Lemma difference_empty_subseteq (P L : gset string) : P ∖ L = ∅ ↔ P ⊆ L.
Proof.
  split.
  - intros H x Hx. destruct (decide (x ∈ L)) as [|Hn]; [done|].
    assert (x ∈ P ∖ L) as Hd by (by apply elem_of_difference).
    rewrite H in Hd. by apply not_elem_of_empty in Hd.
  - intros H. apply set_eq. intros x. rewrite elem_of_difference. split.
    + intros [Hp Hl]. destruct Hl. by apply H.
    + by intros ?%not_elem_of_empty.
Qed.

Lemma missing_as_set (p l : list string) :
  list_to_set (filter (λ c, c ∉ l) p) =@{gset string}
  list_to_set p ∖ list_to_set l.
Proof.
  apply set_eq. intros c.
  rewrite elem_of_difference, !elem_of_list_to_set, list_elem_of_filter.
  tauto.
Qed.

Lemma missing_nil_iff (p l : list string) :
  filter (λ c, c ∉ l) p = []
  ↔ list_to_set p ∖ list_to_set l =@{gset string} ∅.
Proof.
  rewrite <- missing_as_set. split.
  - by intros ->.
  - destruct (filter _ _) as [|c cs]; [done|]. simpl. intros H.
    assert (c ∈@{gset string} ∅) as []%not_elem_of_empty.
    rewrite <- H. apply elem_of_union_l. by apply elem_of_singleton.
Qed.

(** C3: [PrerequisiteRule] returns true exactly when the set difference
    prasyarat - sudah_lulus is empty, that is when prasyarat is included in
    sudah_lulus; when it returns false the list it reports in the warning
    is, as a set, that difference; a record without prerequisites passes. *)
Theorem PrerequisiteRule_validate_spec (w : World) (r : StudentData) :
  as_record (data w) = Some r →
  let P : gset string := list_to_set (prasyarat r) in
  let L : gset string := list_to_set (sudah_lulus r) in
  (P ∖ L = ∅ ↔ P ⊆ L)
  ∧ ((PrerequisiteRule_validate w).1 = Return true ↔ P ∖ L = ∅)
  ∧ (P ∖ L = ∅ →
       PrerequisiteRule_validate w =
         (Return true,
          logged w [mkLogRecord INFO "Semua prasyarat telah terpenuhi." []]))
  ∧ (P ∖ L ≠ ∅ →
       ∃ missing : list string,
         PrerequisiteRule_validate w =
           (Return false, logged w [missing_warning missing])
         ∧ list_to_set missing = P ∖ L)
  ∧ (prasyarat r = [] → (PrerequisiteRule_validate w).1 = Return true).
Proof.
  intros Hr P L. rewrite (PrerequisiteRule_run w r Hr).
  pose proof (missing_nil_iff (prasyarat r) (sudah_lulus r)) as Hnil.
  pose proof (missing_as_set (prasyarat r) (sudah_lulus r)) as Hset.
  fold P L in Hnil, Hset.
  split; [apply difference_empty_subseteq|].
  destruct (filter _ _) as [|c cs] eqn:Hf.
  - assert (P ∖ L = ∅) as HE by by apply Hnil.
    repeat split; try done.
  - assert (P ∖ L ≠ ∅) as HE by (intros HE; by apply Hnil in HE).
    repeat split; try done.
    + intros _. by exists (c :: cs).
    + intros Hp. by rewrite Hp in Hf.
Qed.

Lemma PrerequisiteRule_validate_spec_witness :
  ∃ missing : list string,
    PrerequisiteRule_validate world0 =
      (Return false, logged world0 [missing_warning missing])
    ∧ list_to_set missing =@{gset string}
      list_to_set ["Algoritma"; "Struktur Data"] ∖ list_to_set ["Algoritma"].
Proof.
  destruct (PrerequisiteRule_validate_spec world0 student_data eq_refl)
    as (_ & _ & _ & Hfail & _).
  apply Hfail. intros H. apply (f_equal (λ X : gset string, bool_decide ("Struktur Data" ∈ X))) in H.
  vm_compute in H. discriminate H.
Defined.

Lemma occurrences_filter_not_in c (p l : list string) :
  occurrences c (filter (λ x, x ∉ l) p) =
    if decide (c ∈ l) then 0%nat else occurrences c p.
Proof.
  unfold occurrences. destruct (decide (c ∈ l)) as [Hc|Hc].
  - induction p as [|x p IH]; [done|]. rewrite filter_cons.
    destruct (decide (x ∉ l)) as [Hx|Hx]; [|done].
    rewrite filter_cons, decide_False; [done|]. by intros ->.
  - induction p as [|x p IH]; [done|]. rewrite !filter_cons.
    destruct (decide (x = c)) as [->|Hne].
    + rewrite decide_True by done. rewrite filter_cons, decide_True by done.
      simpl. by rewrite IH.
    + destruct (decide (x ∉ l)); [|done].
      by rewrite filter_cons, decide_False.
Qed.

(** C10: the list [missing] built by [PrerequisiteRule] is an ordered list:
    it is prasyarat filtered by "not in sudah_lulus", so it keeps the
    relative order of prasyarat and every occurrence of a repeated course;
    that list, not a set, is what the warning reports. *)
Theorem PrerequisiteRule_missing_ordered (w : World) (r : StudentData) :
  as_record (data w) = Some r →
  let missing := filter (λ c, c ∉ sudah_lulus r) (prasyarat r) in
  PrerequisiteRule_missing w = (Return (VStr <$> missing), w)
  ∧ (missing ≠ [] →
       PrerequisiteRule_validate w =
         (Return false, logged w [missing_warning missing]))
  ∧ (∀ c, c ∈ missing ↔ c ∈ prasyarat r ∧ c ∉ sudah_lulus r)
  ∧ sublist missing (prasyarat r)
  ∧ (∀ c, c ∉ sudah_lulus r →
          occurrences c missing = occurrences c (prasyarat r)).
Proof.
  intros Hr missing. split; [by apply PrerequisiteRule_missing_run|].
  split; [|split; [|split]].
  - intros Hne. rewrite (PrerequisiteRule_run w r Hr). fold missing.
    by destruct missing.
  - intros c. unfold missing. rewrite list_elem_of_filter. tauto.
  - apply sublist_filter.
  - intros c Hc. unfold missing. rewrite occurrences_filter_not_in.
    by rewrite decide_False.
Qed.

Lemma PrerequisiteRule_missing_ordered_witness :
  PrerequisiteRule_missing
    (mkWorld (to_py (mkStudentData 20 ["B"; "A"; "C"; "B"] ["A"]
       (mkSlot "Senin" "08:00") [])) [] [])
  = (Return [VStr "B"; VStr "C"; VStr "B"],
     mkWorld (to_py (mkStudentData 20 ["B"; "A"; "C"; "B"] ["A"]
       (mkSlot "Senin" "08:00") [])) [] []).
Proof.
  apply (PrerequisiteRule_missing_ordered
           (mkWorld (to_py (mkStudentData 20 ["B"; "A"; "C"; "B"] ["A"]
              (mkSlot "Senin" "08:00") [])) [] [])
           (mkStudentData 20 ["B"; "A"; "C"; "B"] ["A"]
              (mkSlot "Senin" "08:00") [])).
  reflexivity.
Defined.

(** ** JadwalBentrokRule *)

Lemma scan_step w s item t items :
  as_slot item = Some t →
  JadwalBentrokRule_scan (VStr (hari s)) (VStr (jam s)) (item :: items) w =
    if decide (conflict s t)
    then (Return (Some false), logged w [conflict_error])
    else JadwalBentrokRule_scan (VStr (hari s)) (VStr (jam s)) items w.
Proof.
  intros (d & -> & Hh & Hj)%as_slot_inv.
  cbn [JadwalBentrokRule_scan].
  erewrite bind_Return by (simpl; by rewrite Hh).
  change (py_eq (VStr (hari t)) (VStr (hari s)))
    with (bool_decide (hari t = hari s)).
  unfold conflict. case_bool_decide as Hhari.
  - erewrite bind_Return; last first.
    { erewrite bind_Return by (simpl; by rewrite Hj). reflexivity. }
    change (py_eq (VStr (jam t)) (VStr (jam s)))
      with (bool_decide (jam t = jam s)).
    case_bool_decide as Hjam.
    + rewrite decide_True by done.
      by erewrite bind_Return by apply emit_run.
    + rewrite decide_False by tauto. done.
  - erewrite bind_Return by reflexivity.
    rewrite decide_False by tauto. done.
Qed.

Lemma scan_skip w s pre ts rest :
  mapM as_slot pre = Some ts →
  Forall (λ t, ¬ conflict s t) ts →
  JadwalBentrokRule_scan (VStr (hari s)) (VStr (jam s)) (pre ++ rest) w =
  JadwalBentrokRule_scan (VStr (hari s)) (VStr (jam s)) rest w.
Proof.
  intros Hm%mapM_Some_1 Hts. induction Hm as [|x t pre ts Hx Hm IH]; [done|].
  apply Forall_cons in Hts as [Ht Hts]. rewrite <- app_comm_cons.
  rewrite (scan_step _ _ _ _ _ Hx), decide_False by done. by apply IH.
Qed.

Lemma scan_run w s items ts :
  mapM as_slot items = Some ts →
  JadwalBentrokRule_scan (VStr (hari s)) (VStr (jam s)) items w =
    if decide (Exists (conflict s) ts)
    then (Return (Some false), logged w [conflict_error])
    else (Return None, w).
Proof.
  intros Hm%mapM_Some_1. induction Hm as [|x t items ts Hx Hm IH].
  - rewrite decide_False; [done|]. by intros ?%Exists_nil.
  - rewrite (scan_step _ _ _ _ _ Hx). destruct (decide (conflict s t)).
    + rewrite decide_True; [done|]. by left.
    + rewrite IH. destruct (decide (Exists _ ts)) as [He|He].
      * rewrite decide_True; [done|]. by right.
      * rewrite decide_False; [done|]. by intros [?|?]%Exists_cons.
Qed.

Lemma JadwalBentrokRule_enter w d s items :
  data w = VDict d →
  (∃ j, dict_get d "jadwal" = Some j ∧ as_slot j = Some s) →
  dict_get d "jadwal_terambil" = Some (VList items) →
  JadwalBentrokRule_validate w =
    (r ← JadwalBentrokRule_scan (VStr (hari s)) (VStr (jam s)) items;
     match r with
     | Some b => mret b
     | None => LOGGER_info "Tidak ada bentrok jadwal." [];; mret true
     end) w.
Proof.
  intros Hd (j & Hj & (dj & -> & Hh & Hm)%as_slot_inv) Ht.
  unfold JadwalBentrokRule_validate.
  erewrite bind_Return by (by eapply data_getitem_run).
  erewrite bind_Return by (simpl; by rewrite Hh).
  erewrite bind_Return by (simpl; by rewrite Hm).
  erewrite bind_Return by (by eapply data_getitem_run).
  by erewrite bind_Return by reflexivity.
Qed.

Lemma JadwalBentrokRule_run w r :
  as_record (data w) = Some r →
  JadwalBentrokRule_validate w =
    if decide (Exists (conflict (jadwal r)) (jadwal_terambil r))
    then (Return false, logged w [conflict_error])
    else (Return true, logged w [no_conflict_info]).
Proof.
  intros (d & Hd & Hr)%as_record_inv.
  destruct Hr as [_ _ _ Hj (ts & Ht & Hts)].
  rewrite (JadwalBentrokRule_enter w d (jadwal r) ts Hd Hj Ht).
  unfold mbind at 1. unfold M_bind. rewrite (scan_run w _ _ _ Hts).
  by destruct (decide _).
Qed.

(** C5: [JadwalBentrokRule] returns false exactly when some taken slot has
    the day and the time of the requested slot (string equality), and true
    otherwise, in particular when no slot is taken.  The scan stops at the
    first such slot: whatever follows it in [jadwal_terambil], even entries
    on which a subscript would raise, is not looked at. *)
Theorem JadwalBentrokRule_validate_spec :
  (∀ (w : World) (r : StudentData),
     as_record (data w) = Some r →
     let clash := ∃ t, t ∈ jadwal_terambil r ∧ conflict (jadwal r) t in
     ((JadwalBentrokRule_validate w).1 = Return false ↔ clash)
     ∧ (clash →
          JadwalBentrokRule_validate w =
            (Return false, logged w [conflict_error]))
     ∧ (¬ clash →
          JadwalBentrokRule_validate w =
            (Return true, logged w [no_conflict_info]))
     ∧ (jadwal_terambil r = [] →
          (JadwalBentrokRule_validate w).1 = Return true))
  ∧ (∀ (w : World) (d : list (string * pyval)) (s m : Slot)
       (pre : list Slot) (post : list pyval),
       data w = VDict d →
       dict_get d "jadwal" = Some (slot_to_py s) →
       dict_get d "jadwal_terambil" =
         Some (VList ((slot_to_py <$> pre) ++ slot_to_py m :: post)) →
       Forall (λ t, ¬ conflict s t) pre →
       conflict s m →
       JadwalBentrokRule_validate w =
         (Return false, logged w [conflict_error])).
Proof.
  split.
  - intros w r Hr clash. rewrite (JadwalBentrokRule_run w r Hr).
    assert (clash ↔ Exists (conflict (jadwal r)) (jadwal_terambil r)) as Hc
      by (unfold clash; by rewrite Exists_exists).
    destruct (decide _) as [He|He].
    + repeat split; try done; try tauto.
      intros Hnil. rewrite Hnil in He. by apply Exists_nil in He.
    + repeat split; try done; try tauto.
  - intros w d s m pre post Hd Hj Ht Hpre Hm.
    assert (as_slot (slot_to_py s) = Some s) as Hs by by destruct s.
    rewrite (JadwalBentrokRule_enter w d s _ Hd (ex_intro _ _ (conj Hj Hs)) Ht).
    unfold mbind at 1. unfold M_bind.
    rewrite (scan_skip w s _ pre); [|by apply mapM_fmap_Some; intros []|done].
    rewrite (scan_step w s _ m) by by destruct m.
    by rewrite decide_True.
Qed.

Lemma JadwalBentrokRule_validate_spec_witness :
  JadwalBentrokRule_validate world0 =
    (Return false, logged world0 [conflict_error])
  ∧ JadwalBentrokRule_validate world_junk_after_clash =
    (Return false, logged world_junk_after_clash [conflict_error]).
Proof.
  destruct JadwalBentrokRule_validate_spec as [Hwf Hstop]. split.
  - apply (Hwf world0 student_data eq_refl).
    exists (mkSlot "Senin" "08:00"). split; [by left | by split].
  - eapply (Hstop world_junk_after_clash _
             (mkSlot "Senin" "08:00") (mkSlot "Senin" "08:00")
             [mkSlot "Selasa" "08:00"] [VInt 7]);
      [reflexivity | reflexivity | reflexivity | | by split].
    apply Forall_cons. split; [|by apply Forall_nil].
    intros [H _]. discriminate H.
Defined.

(** An entry that is not a dict makes the rule raise when it stands before
    the first clash; after it, it goes unnoticed. *)
Example JadwalBentrokRule_raises_before_clash :
  (JadwalBentrokRule_validate world_junk_before_clash).1 = Raise TypeError.
Proof. reflexivity. Qed.

(** ** RegistrationService *)

Lemma validate_enter self w :
  RegistrationService_validate self w =
  RegistrationService_loop (rules self) (logged w [banner]).
Proof. done. Qed.

Lemma loop_nil w :
  RegistrationService_loop [] w = (Return true, logged w [success_info]).
Proof. done. Qed.

Lemma loop_cons_true rule rs w w' :
  invoke rule w = (Return true, w') →
  RegistrationService_loop (rule :: rs) w = RegistrationService_loop rs w'.
Proof. intros H. simpl. by erewrite bind_Return by apply H. Qed.

Lemma loop_cons_false rule rs w w' :
  invoke rule w = (Return false, w') →
  RegistrationService_loop (rule :: rs) w =
    (Return false, logged w' [failure_error]).
Proof. intros H. simpl. by erewrite bind_Return by apply H. Qed.

Lemma loop_cons_raise rule rs w e w' :
  invoke rule w = (Raise e, w') →
  RegistrationService_loop (rule :: rs) w = (Raise e, w').
Proof. intros H. simpl. by erewrite bind_Raise by apply H. Qed.

Lemma loop_skip d pre :
  (∀ p, p ∈ pre → returns p d true) →
  ∃ l, ∀ rest es cs,
    RegistrationService_loop (pre ++ rest) (mkWorld d es cs) =
    RegistrationService_loop rest
      (mkWorld d (es ++ l) (cs ++ (class_name <$> pre))).
Proof.
  induction pre as [|p pre IH]; intros Hpre.
  - exists []. intros. by rewrite !app_nil_r.
  - destruct (Hpre p) as [lp Hp]; [by left|].
    destruct IH as [l IH]; [intros; apply Hpre; by right|].
    exists (lp ++ l). intros rest es cs.
    rewrite <- app_comm_cons.
    erewrite loop_cons_true by (unfold invoke; simpl; apply Hp).
    rewrite IH. rewrite fmap_cons. by rewrite !app_assoc, <- (app_assoc cs).
Qed.

Lemma loop_fail d rule :
  returns rule d false →
  ∃ l, ∀ post es cs,
    RegistrationService_loop (rule :: post) (mkWorld d es cs) =
      (Return false, mkWorld d (es ++ l) (cs ++ [class_name rule])).
Proof.
  intros [l Hr]. exists (l ++ [failure_error]). intros post es cs.
  erewrite loop_cons_false by (unfold invoke; simpl; apply Hr).
  unfold logged. simpl. by rewrite app_assoc.
Qed.

(** If every rule has a verdict on [d], so has the loop. *)
Lemma loop_total d rs :
  (∀ r, r ∈ rs → ∃ b, returns r d b) →
  ∃ b l c, ∀ es cs,
    RegistrationService_loop rs (mkWorld d es cs) =
      (Return b, mkWorld d (es ++ l) (cs ++ c))
    ∧ (b = true ↔ ∀ r, r ∈ rs → returns r d true).
Proof.
  induction rs as [|r rs IH]; intros Hrs.
  - exists true, [success_info], []. intros es cs. rewrite app_nil_r.
    split; [done|]. split; [|done]. by intros _ r ?%elem_of_nil.
  - destruct (Hrs r) as [[|] Hr]; [by left| |].
    + destruct IH as (b & l & c & IH); [intros; apply Hrs; by right|].
      destruct Hr as [lr Hr].
      exists b, (lr ++ l), (class_name r :: c). intros es cs.
      erewrite loop_cons_true by (unfold invoke; simpl; apply Hr).
      destruct (IH (es ++ lr) (cs ++ [class_name r])) as [-> Hb].
      rewrite <- !app_assoc. split; [done|]. rewrite Hb. split.
      * intros H r' [->|?]%elem_of_cons; [by exists lr | by apply H].
      * intros H r' ?. apply H. by right.
    + destruct (loop_fail d r Hr) as [l Hl].
      exists false, l, [class_name r]. intros es cs.
      rewrite Hl. split; [done|]. split; [done|]. intros H.
      destruct (H r) as [l' Hl']; [by left|]. destruct Hr as [l'' Hl''].
      specialize (Hl' [] []). rewrite Hl'' in Hl'. by injection Hl'.
Qed.

(** C1: [RegistrationService.validate] returns true exactly when every rule
    of the sequence returns true on the record.  If all do, each rule is
    invoked once, in order.  If the rules [pre] return true and the next
    rule [r] returns false, it returns false having invoked [pre] and [r]
    only: outcome, log and call trace are the same whatever rules [post]
    follow [r]. *)
Theorem RegistrationService_validate_spec (d : pyval)
    (es : list LogRecord) (cs : list string) :
  (∀ rs,
     (∀ r, r ∈ rs → returns r d true) →
     ∃ l,
       RegistrationService_validate (mkService rs) (mkWorld d es cs) =
         (Return true, mkWorld d (es ++ l) (cs ++ (class_name <$> rs))))
  ∧ (∀ pre r,
       (∀ p, p ∈ pre → returns p d true) →
       returns r d false →
       ∃ l, ∀ post,
         RegistrationService_validate (mkService (pre ++ r :: post))
           (mkWorld d es cs) =
           (Return false,
            mkWorld d (es ++ l) (cs ++ (class_name <$> (pre ++ [r])))))
  ∧ (∀ rs,
       (∀ r, r ∈ rs → ∃ b, returns r d b) →
       ((RegistrationService_validate (mkService rs) (mkWorld d es cs)).1
          = Return true
        ↔ ∀ r, r ∈ rs → returns r d true)).
Proof.
  split; [|split].
  - intros rs Hrs. destruct (loop_skip d rs Hrs) as [l Hl].
    exists ([banner] ++ l ++ [success_info]).
    rewrite validate_enter. unfold logged. simpl.
    rewrite <- (app_nil_r rs) at 1. rewrite Hl, loop_nil.
    unfold logged. simpl. by rewrite <- !app_assoc.
  - intros pre r Hpre Hr. destruct (loop_skip d pre Hpre) as [l Hl].
    destruct (loop_fail d r Hr) as [l' Hl'].
    exists ([banner] ++ l ++ l'). intros post.
    rewrite validate_enter. unfold logged. simpl.
    rewrite Hl, Hl'. rewrite fmap_app. simpl.
    by rewrite <- !app_assoc.
  - intros rs Hrs. destruct (loop_total d rs Hrs) as (b & l & c & H).
    rewrite validate_enter. unfold logged. simpl.
    destruct (H (es ++ [banner]) cs) as [-> Hb]. simpl.
    rewrite <- Hb. split; [by intros [= ->] | by intros ->].
Qed.

(** On a well-formed record each of the program's rules has a verdict. *)
Lemma SksLimitRule_returns max_sks d r :
  as_record d = Some r →
  returns (SksLimitRule max_sks) d (bool_decide (sks r ≤ max_sks)%Z).
Proof.
  intros Hr. unfold returns. simpl.
  destruct (bool_decide _) eqn:Hb; eexists; intros es cs;
    rewrite (SksLimitRule_run max_sks (mkWorld d es cs) r Hr), Hb;
    reflexivity.
Qed.

Lemma PrerequisiteRule_returns d r :
  as_record d = Some r →
  returns PrerequisiteRule d
    (bool_decide (filter (λ c, c ∉ sudah_lulus r) (prasyarat r) = [])).
Proof.
  intros Hr. unfold returns. simpl.
  destruct (filter _ _) as [|c cs'] eqn:Hf; eexists; intros es cs;
    rewrite (PrerequisiteRule_run (mkWorld d es cs) r Hr), Hf;
    reflexivity.
Qed.

Lemma JadwalBentrokRule_returns d r :
  as_record d = Some r →
  returns JadwalBentrokRule d
    (bool_decide (¬ Exists (conflict (jadwal r)) (jadwal_terambil r))).
Proof.
  intros Hr. unfold returns. simpl.
  destruct (decide (Exists (conflict (jadwal r)) (jadwal_terambil r)))
    as [He|He] eqn:Hd.
  - rewrite bool_decide_eq_false_2 by tauto. eexists. intros es cs.
    rewrite (JadwalBentrokRule_run (mkWorld d es cs) r Hr), Hd. reflexivity.
  - rewrite bool_decide_eq_true_2 by done. eexists. intros es cs.
    rewrite (JadwalBentrokRule_run (mkWorld d es cs) r Hr), Hd. reflexivity.
Qed.

Lemma builtin_returns rule d :
  builtin rule → well_formed d → ∃ b, returns rule d b.
Proof.
  intros [[m ->]|[->| ->]] [r Hr]; eexists.
  - by apply SksLimitRule_returns.
  - by apply PrerequisiteRule_returns.
  - by apply JadwalBentrokRule_returns.
Qed.

Lemma returns_run rule w b :
  returns rule (data w) b → ∃ w', validate rule w = (Return b, w').
Proof. intros [l H]. destruct w as [d es cs]. eexists. apply H. Qed.

Lemma builtin_main_rules : Forall builtin main_rules.
Proof.
  repeat apply Forall_cons_2; try apply Forall_nil; unfold builtin; eauto.
Qed.

Lemma RegistrationService_validate_spec_witness :
  ∃ l, ∀ post,
    RegistrationService_validate
      (mkService ([SksLimitRule 24] ++ PrerequisiteRule :: post)) world0 =
      (Return false,
       mkWorld (to_py student_data) ([] ++ l)
         ([] ++ ["SksLimitRule"; "PrerequisiteRule"])).
Proof.
  destruct (RegistrationService_validate_spec (to_py student_data) [] [])
    as (_ & Hfail & _).
  apply (Hfail [SksLimitRule 24] PrerequisiteRule).
  - intros p ->%list_elem_of_singleton.
    apply (SksLimitRule_returns 24 _ student_data). reflexivity.
  - apply (PrerequisiteRule_returns _ student_data). reflexivity.
Defined.

(** C7: on a well-formed record no call raises: each rule's [validate]
    returns a boolean, and so does [RegistrationService.validate] for every
    sequence of the program's rules. *)
Theorem validate_does_not_raise (w : World) :
  well_formed (data w) →
  (∀ max_sks, ∃ b w', SksLimitRule_validate max_sks w = (Return b, w'))
  ∧ (∃ b w', PrerequisiteRule_validate w = (Return b, w'))
  ∧ (∃ b w', JadwalBentrokRule_validate w = (Return b, w'))
  ∧ (∀ rs, Forall builtin rs →
       ∃ b w',
         RegistrationService_validate (mkService rs) w = (Return b, w')).
Proof.
  intros Hw. pose proof Hw as [r Hr]. repeat split.
  - intros m. eexists.
    apply (returns_run (SksLimitRule m)), SksLimitRule_returns, Hr.
  - eexists. apply (returns_run PrerequisiteRule), PrerequisiteRule_returns, Hr.
  - eexists.
    apply (returns_run JadwalBentrokRule), JadwalBentrokRule_returns, Hr.
  - intros rs Hrs. rewrite validate_enter.
    destruct (loop_total (data w) rs) as (b & l & c & H).
    { intros rule Hin. apply builtin_returns; [|done].
      by eapply Forall_forall in Hrs. }
    exists b. eexists. unfold logged. apply H.
Qed.

Lemma validate_does_not_raise_witness :
  ∃ b w', RegistrationService_validate service world0 = (Return b, w').
Proof.
  apply (validate_does_not_raise world0).
  - exists student_data. reflexivity.
  - apply builtin_main_rules.
Defined.

(** A rule given a record that lacks a field raises, and the service lets
    the exception through. *)
Example SksLimitRule_raises_on_missing_field :
  SksLimitRule_validate 24 (mkWorld (VDict []) [] []) =
    (Raise (KeyError "sks"), mkWorld (VDict []) [] [])
  ∧ (RegistrationService_validate service (mkWorld (VDict []) [] [])).1 =
    Raise (KeyError "sks").
Proof. split; reflexivity. Qed.

(** The service with rules that keep the interface contract: its outcome,
    the records it emits and the calls it makes are a function of the
    record, which it leaves as it was. *)
Lemma loop_observes rs :
  (∀ r, r ∈ rs → observes (validate r)) →
  ∀ d, ∃ o l c, ∀ es cs,
    RegistrationService_loop rs (mkWorld d es cs) =
      (o, mkWorld d (es ++ l) (cs ++ c)).
Proof.
  induction rs as [|r rs IH]; intros Hrs d.
  - exists (Return true), [success_info], []. intros. by rewrite app_nil_r.
  - destruct (Hrs r) with d as ([[|]|e] & l & Hr); [by left| | |].
    + destruct (IH (λ r' H, Hrs r' (list_elem_of_further _ _ _ H)) d)
        as (o & l' & c & H).
      exists o, (l ++ l'), (class_name r :: c). intros es cs.
      erewrite loop_cons_true by (unfold invoke; simpl; apply Hr).
      rewrite H. by rewrite <- !app_assoc.
    + exists (Return false), (l ++ [failure_error]), [class_name r].
      intros es cs.
      erewrite loop_cons_false by (unfold invoke; simpl; apply Hr).
      unfold logged. simpl. by rewrite <- app_assoc.
    + exists (Raise e), l, [class_name r]. intros es cs.
      by erewrite loop_cons_raise by (unfold invoke; simpl; apply Hr).
Qed.

Lemma service_observes rs :
  (∀ r, r ∈ rs → observes (validate r)) →
  ∀ d, ∃ o l c, ∀ es cs,
    RegistrationService_validate (mkService rs) (mkWorld d es cs) =
      (o, mkWorld d (es ++ l) (cs ++ c)).
Proof.
  intros Hrs d. destruct (loop_observes rs Hrs d) as (o & l & c & H).
  exists o, ([banner] ++ l), c. intros es cs.
  rewrite validate_enter. unfold logged. simpl.
  rewrite H. by rewrite <- app_assoc.
Qed.

Lemma builtin_all_observe rs :
  Forall builtin rs → ∀ r, r ∈ rs → observes (validate r).
Proof.
  intros Hrs r Hr. apply builtin_observes. by eapply Forall_forall in Hrs.
Qed.

Lemma observes_data {A} (m : M A) w : observes m → data (m w).2 = data w.
Proof. intros (o & l & ->)%(observes_run m w). done. Qed.

(** C6: no rule, and no run of the service over a sequence of the program's
    rules, changes the record: after the call, whether it returned or
    raised, [data] (hence every field of it) is what it was before. *)
Theorem validate_leaves_record_unchanged (w : World) :
  (∀ max_sks, data (SksLimitRule_validate max_sks w).2 = data w)
  ∧ data (PrerequisiteRule_validate w).2 = data w
  ∧ data (JadwalBentrokRule_validate w).2 = data w
  ∧ (∀ rs, Forall builtin rs →
       data (RegistrationService_validate (mkService rs) w).2 = data w
       ∧ as_record
           (data (RegistrationService_validate (mkService rs) w).2) =
         as_record (data w)).
Proof.
  repeat split.
  - intros m. apply observes_data, observes_SksLimitRule.
  - apply observes_data, observes_PrerequisiteRule.
  - apply observes_data, observes_JadwalBentrokRule.
  - destruct (service_observes rs (builtin_all_observe rs H) (data w))
      as (o & l & c & Hrun).
    destruct w as [d es cs]. by rewrite Hrun.
  - destruct (service_observes rs (builtin_all_observe rs H) (data w))
      as (o & l & c & Hrun).
    destruct w as [d es cs]. by rewrite Hrun.
Qed.

Lemma validate_leaves_record_unchanged_witness :
  data (RegistrationService_validate service world0).2 = to_py student_data.
Proof.
  apply (validate_leaves_record_unchanged world0). apply builtin_main_rules.
Defined.

(** C8: two successive calls of [RegistrationService.validate] on the same
    record with the same rules have the same outcome (the same boolean, or
    the same exception), the first call having left the record as it was.
    This holds for rules that keep the interface contract ([observes]), and
    so for every sequence of the program's rules on every record. *)
Theorem validate_is_repeatable (rs : list IValidationRule) (w : World) :
  let run1 := RegistrationService_validate (mkService rs) w in
  let run2 := RegistrationService_validate (mkService rs) run1.2 in
  ((∀ r, r ∈ rs → observes (validate r)) →
     run2.1 = run1.1 ∧ data run1.2 = data w)
  ∧ (Forall builtin rs → run2.1 = run1.1 ∧ data run1.2 = data w).
Proof.
  intros run1 run2.
  assert ((∀ r, r ∈ rs → observes (validate r)) →
          run2.1 = run1.1 ∧ data run1.2 = data w) as Hgen.
  { intros Hrs. unfold run2, run1.
    destruct (service_observes rs Hrs (data w)) as (o & l & c & Hrun).
    destruct w as [d es cs]. simpl in Hrun.
    rewrite (Hrun es cs). simpl. by rewrite Hrun. }
  split; [exact Hgen|]. intros Hrs. by apply Hgen, builtin_all_observe.
Qed.

Lemma validate_is_repeatable_witness :
  (RegistrationService_validate service
     (RegistrationService_validate service world0).2).1 =
  (RegistrationService_validate service world0).1.
Proof.
  apply (validate_is_repeatable main_rules world0).
  apply builtin_main_rules.
Defined.

(** C9: a service built with no rules returns true on every record, having
    emitted the banner and the success record and invoked nothing. *)
Theorem validate_no_rules (w : World) :
  RegistrationService_validate (mkService []) w =
    (Return true, logged w [banner; success_info]).
Proof. by rewrite validate_enter, loop_nil, logged_logged. Qed.

(** C2: the program's own run.  On the sample record with the rules
    [SksLimitRule(24); PrerequisiteRule(); JadwalBentrokRule()] the service
    returns false.  [SksLimitRule] is invoked once and returns true,
    [PrerequisiteRule] is invoked once and returns false reporting
    ["Struktur Data"] as missing, and [JadwalBentrokRule] is never
    invoked. *)
Theorem main_short_circuits_at_PrerequisiteRule :
  main =
    (Return false,
     mkWorld (to_py student_data)
       [banner;
        mkLogRecord INFO "SKS %s tidak melebihi batas %s." [VInt 20; VInt 24];
        missing_warning ["Struktur Data"];
        failure_error]
       ["SksLimitRule"; "PrerequisiteRule"])
  ∧ (SksLimitRule_validate 24 world0).1 = Return true
  ∧ (PrerequisiteRule_validate world0).1 = Return false
  ∧ (PrerequisiteRule_missing world0).1 = Return [VStr "Struktur Data"]
  ∧ occurrences "SksLimitRule" (calls main.2) = 1%nat
  ∧ occurrences "PrerequisiteRule" (calls main.2) = 1%nat
  ∧ occurrences "JadwalBentrokRule" (calls main.2) = 0%nat.
Proof. repeat split; vm_compute; reflexivity. Qed.

(** * Further properties of the rules and of the service *)

(** ** Records that are not well-formed *)

Lemma data_getitem_missing w d k :
  data w = VDict d → dict_get d k = None →
  data_getitem k w = (Raise (KeyError k), w).
Proof.
  intros Hd Hk. unfold data_getitem.
  erewrite bind_Return by reflexivity.
  simpl. rewrite Hd. simpl. by rewrite Hk.
Qed.



(** [PrerequisiteRule] looks at [prasyarat] and [sudah_lulus] only, and at
    [sudah_lulus] only once per prerequisite: a record with an empty
    [prasyarat] passes even without the key [sudah_lulus]; with a
    prerequisite to check and no [sudah_lulus] the rule raises
    [KeyError('sudah_lulus')]; without [prasyarat] it raises
    [KeyError('prasyarat')].  When it raises it has emitted nothing. *)
Theorem PrerequisiteRule_reads_only_its_fields (w : World)
    (d : list (string * pyval)) :
  data w = VDict d →
  (dict_get d "prasyarat" = None →
     PrerequisiteRule_validate w = (Raise (KeyError "prasyarat"), w))
  ∧ (dict_get d "prasyarat" = Some (VList []) →
       PrerequisiteRule_validate w =
         (Return true,
          logged w [mkLogRecord INFO "Semua prasyarat telah terpenuhi." []]))
  ∧ (∀ c p, dict_get d "prasyarat" = Some (VList (c :: p)) →
       dict_get d "sudah_lulus" = None →
       PrerequisiteRule_validate w = (Raise (KeyError "sudah_lulus"), w))
  ∧ (∀ p l,
       dict_get d "prasyarat" = Some (VList (VStr <$> p)) →
       dict_get d "sudah_lulus" = Some (VList (VStr <$> l)) →
       PrerequisiteRule_validate w =
         match filter (λ c, c ∉ l) p with
         | [] =>
             (Return true,
              logged w
                [mkLogRecord INFO "Semua prasyarat telah terpenuhi." []])
         | c :: cs => (Return false, logged w [missing_warning (c :: cs)])
         end).
Proof.
  intros Hd. unfold PrerequisiteRule_validate, PrerequisiteRule_missing.
  repeat split.
  - intros Hp. erewrite bind_Raise; [done|].
    by erewrite bind_Raise by (by eapply data_getitem_missing).
  - intros Hp. erewrite bind_Return; last first.
    { erewrite bind_Return by (by eapply data_getitem_run).
      erewrite bind_Return by reflexivity. reflexivity. }
    cbn [py_not_list]. by erewrite bind_Return by apply emit_run.
  - intros c p Hp Hl. erewrite bind_Raise; [done|].
    erewrite bind_Return by (by eapply data_getitem_run).
    erewrite bind_Return by reflexivity.
    cbn [comprehension]. erewrite bind_Raise; [done|].
    by erewrite bind_Raise by (by eapply data_getitem_missing).
  - intros p l Hp Hl. erewrite bind_Return; last first.
    { erewrite bind_Return by (by eapply data_getitem_run).
      erewrite bind_Return by reflexivity.
      by apply comprehension_not_in_run with d. }
    destruct (filter _ _) as [|c cs]; simpl;
      by erewrite bind_Return by apply emit_run.
Qed.

Lemma PrerequisiteRule_reads_only_its_fields_witness :
  PrerequisiteRule_validate (mkWorld (VDict [("prasyarat", VList [])]) [] [])
  = (Return true,
     logged (mkWorld (VDict [("prasyarat", VList [])]) [] [])
       [mkLogRecord INFO "Semua prasyarat telah terpenuhi." []])
  ∧ PrerequisiteRule_validate
      (mkWorld (VDict [("prasyarat", VList [VStr "Algoritma"])]) [] [])
    = (Raise (KeyError "sudah_lulus"),
       mkWorld (VDict [("prasyarat", VList [VStr "Algoritma"])]) [] []).
Proof.
  split.
  - destruct (PrerequisiteRule_reads_only_its_fields
                (mkWorld (VDict [("prasyarat", VList [])]) [] []) _ eq_refl)
      as (_ & Hempty & _).
    apply Hempty. reflexivity.
  - destruct (PrerequisiteRule_reads_only_its_fields
                (mkWorld (VDict [("prasyarat", VList [VStr "Algoritma"])])
                   [] []) _ eq_refl) as (_ & _ & Hlulus & _).
    apply (Hlulus (VStr "Algoritma") []); reflexivity.
Defined.

Lemma scan_other_day w s item items :
  on_other_day s item →
  JadwalBentrokRule_scan (VStr (hari s)) (VStr (jam s)) (item :: items) w =
  JadwalBentrokRule_scan (VStr (hari s)) (VStr (jam s)) items w.
Proof.
  intros (di & h & -> & Hh & Hne). cbn [JadwalBentrokRule_scan].
  erewrite bind_Return by (simpl; by rewrite Hh).
  change (py_eq (VStr h) (VStr (hari s))) with (bool_decide (h = hari s)).
  rewrite bool_decide_eq_false_2 by done.
  by erewrite bind_Return by reflexivity.
Qed.

Lemma scan_other_days w s pre rest :
  Forall (on_other_day s) pre →
  JadwalBentrokRule_scan (VStr (hari s)) (VStr (jam s)) (pre ++ rest) w =
  JadwalBentrokRule_scan (VStr (hari s)) (VStr (jam s)) rest w.
Proof.
  induction 1 as [|item pre Hitem _ IH]; [done|].
  rewrite <- app_comm_cons. by rewrite scan_other_day.
Qed.

(** The test [item["hari"] == hari and item["jam"] == jam] reads the time of
    a taken entry only when its day is the requested one.  So entries on
    other days need no [jam]: if all taken entries are on other days the
    rule returns true.  The first entry on the requested day that lacks
    [jam] makes the rule raise [KeyError('jam')], nothing being emitted. *)
Theorem JadwalBentrokRule_reads_jam_lazily (w : World)
    (d : list (string * pyval)) (s : Slot) (items : list pyval) :
  data w = VDict d →
  dict_get d "jadwal" = Some (slot_to_py s) →
  dict_get d "jadwal_terambil" = Some (VList items) →
  (Forall (on_other_day s) items →
     JadwalBentrokRule_validate w = (Return true, logged w [no_conflict_info]))
  ∧ (∀ pre di post,
       items = pre ++ VDict di :: post →
       Forall (on_other_day s) pre →
       dict_get di "hari" = Some (VStr (hari s)) →
       dict_get di "jam" = None →
       JadwalBentrokRule_validate w = (Raise (KeyError "jam"), w)).
Proof.
  intros Hd Hj Ht.
  assert (as_slot (slot_to_py s) = Some s) as Hs by by destruct s.
  rewrite (JadwalBentrokRule_enter w d s _ Hd (ex_intro _ _ (conj Hj Hs)) Ht).
  split.
  - intros Hall. unfold mbind at 1. unfold M_bind.
    rewrite <- (app_nil_r items). by rewrite scan_other_days.
  - intros pre di post -> Hpre Hh Hm. erewrite bind_Raise; [done|].
    rewrite scan_other_days by done.
    cbn [JadwalBentrokRule_scan].
    erewrite bind_Return by (simpl; by rewrite Hh).
    change (py_eq (VStr (hari s)) (VStr (hari s)))
      with (bool_decide (hari s = hari s)).
    rewrite bool_decide_eq_true_2 by done.
    erewrite bind_Raise; [done|].
    by erewrite bind_Raise by (simpl; by rewrite Hm).
Qed.

Lemma JadwalBentrokRule_reads_jam_lazily_witness :
  JadwalBentrokRule_validate world_taken_without_jam =
    (Return true, logged world_taken_without_jam [no_conflict_info]).
Proof.
  destruct (JadwalBentrokRule_reads_jam_lazily world_taken_without_jam _
              (mkSlot "Senin" "08:00") [VDict [("hari", VStr "Selasa")]]
              eq_refl eq_refl eq_refl) as [Hother _].
  apply Hother. apply Forall_cons_2; [|apply Forall_nil_2].
  exists [("hari", VStr "Selasa")], "Selasa".
  split; [reflexivity|]. split; [reflexivity|]. simpl. discriminate.
Defined.

(** [JadwalBentrokRule] reads the requested slot before the taken ones: a
    record without [jadwal], or whose [jadwal] lacks [hari] or [jam], makes
    it raise the [KeyError] of that key, whatever [jadwal_terambil] is; only
    then a missing [jadwal_terambil] is noticed.  Nothing is emitted. *)
Theorem JadwalBentrokRule_missing_fields (w : World)
    (d : list (string * pyval)) :
  data w = VDict d →
  (dict_get d "jadwal" = None →
     JadwalBentrokRule_validate w = (Raise (KeyError "jadwal"), w))
  ∧ (∀ j, dict_get d "jadwal" = Some (VDict j) →
       dict_get j "hari" = None →
       JadwalBentrokRule_validate w = (Raise (KeyError "hari"), w))
  ∧ (∀ j h, dict_get d "jadwal" = Some (VDict j) →
       dict_get j "hari" = Some h → dict_get j "jam" = None →
       JadwalBentrokRule_validate w = (Raise (KeyError "jam"), w))
  ∧ (∀ j h m, dict_get d "jadwal" = Some (VDict j) →
       dict_get j "hari" = Some h → dict_get j "jam" = Some m →
       dict_get d "jadwal_terambil" = None →
       JadwalBentrokRule_validate w =
         (Raise (KeyError "jadwal_terambil"), w)).
Proof.
  intros Hd. unfold JadwalBentrokRule_validate. repeat split.
  - intros Hj. by erewrite bind_Raise by (by eapply data_getitem_missing).
  - intros j Hj Hh. erewrite bind_Return by (by eapply data_getitem_run).
    by erewrite bind_Raise by (simpl; by rewrite Hh).
  - intros j h Hj Hh Hm. erewrite bind_Return by (by eapply data_getitem_run).
    erewrite bind_Return by (simpl; by rewrite Hh).
    by erewrite bind_Raise by (simpl; by rewrite Hm).
  - intros j h m Hj Hh Hm Ht.
    erewrite bind_Return by (by eapply data_getitem_run).
    erewrite bind_Return by (simpl; by rewrite Hh).
    erewrite bind_Return by (simpl; by rewrite Hm).
    by erewrite bind_Raise by (by eapply data_getitem_missing).
Qed.

Lemma JadwalBentrokRule_missing_fields_witness :
  JadwalBentrokRule_validate world_sks_only =
    (Raise (KeyError "jadwal"), world_sks_only).
Proof.
  destruct (JadwalBentrokRule_missing_fields world_sks_only _ eq_refl)
    as (Hjadwal & _).
  apply Hjadwal. reflexivity.
Defined.

(** ** A rule that raises has emitted nothing *)

Lemma silent_mret {A} (a : A) : silent (mret a : M A).
Proof. done. Qed.

Lemma silent_raise {A} e : silent (raise e : M A).
Proof. done. Qed.

Lemma silent_bind {A B} (m : M A) (k : A → M B) :
  silent m → (∀ a, silent (k a)) → silent (m ≫= k).
Proof.
  intros Hm Hk w. unfold mbind, M_bind. specialize (Hm w).
  destruct (m w) as [[a|e] w']; simpl in Hm; subst w'; [apply Hk | done].
Qed.

Lemma silent_getitem v k : silent (getitem v k).
Proof.
  destruct v as [| | |d]; simpl; try apply silent_raise.
  destruct (dict_get d k); [apply silent_mret | apply silent_raise].
Qed.

Lemma silent_data_getitem k : silent (data_getitem k).
Proof. apply silent_bind; [done | intros; apply silent_getitem]. Qed.

Lemma silent_py_le v n : silent (py_le v n).
Proof. by destruct v. Qed.

Lemma silent_py_iter v : silent (py_iter v).
Proof. by destruct v. Qed.

Lemma silent_py_contains v x : silent (py_contains v x).
Proof. by destruct v, x. Qed.

Lemma silent_comprehension keep xs :
  (∀ x, silent (keep x)) → silent (comprehension keep xs).
Proof.
  intros Hk. induction xs as [|x xs IH]; [done|]. simpl.
  apply silent_bind; [done|]. intros k.
  apply silent_bind; [done|]. intros rest. apply silent_mret.
Qed.

Lemma silent_missing : silent PrerequisiteRule_missing.
Proof.
  unfold PrerequisiteRule_missing.
  apply silent_bind; [apply silent_data_getitem|]. intros p.
  apply silent_bind; [apply silent_py_iter|]. intros xs.
  apply silent_comprehension. intros x.
  apply silent_bind; [apply silent_data_getitem|]. intros l.
  apply silent_bind; [apply silent_py_contains|]. intros f.
  apply silent_mret.
Qed.

Lemma silent_raises_cleanly {A} (m : M A) : silent m → raises_cleanly m.
Proof. intros Hm w e w' H. specialize (Hm w). by rewrite H in Hm. Qed.

Lemma never_raises_raises_cleanly {A} (m : M A) :
  never_raises m → raises_cleanly m.
Proof. intros Hm w e w' H. destruct (Hm w) as (a & w1 & Ha). congruence. Qed.

Lemma raises_cleanly_after_silent {A B} (m : M A) (k : A → M B) :
  silent m → (∀ a, raises_cleanly (k a)) → raises_cleanly (m ≫= k).
Proof.
  intros Hm Hk w e w'. unfold mbind, M_bind. specialize (Hm w).
  destruct (m w) as [[a|e'] w1]; simpl in Hm; subst w1.
  - apply Hk.
  - by intros [= _ ->].
Qed.

Lemma raises_cleanly_before_total {A B} (m : M A) (k : A → M B) :
  raises_cleanly m → (∀ a, never_raises (k a)) → raises_cleanly (m ≫= k).
Proof.
  intros Hm Hk w e w'. unfold mbind, M_bind.
  destruct (m w) as [[a|e'] w1] eqn:Hmw.
  - destruct (Hk a w1) as (b & w2 & ->). done.
  - intros [= _ <-]. by eapply Hm.
Qed.

Lemma never_raises_emit_mret r (b : bool) : never_raises (emit r;; mret b).
Proof. intros w. by eexists _, _. Qed.

Lemma raises_cleanly_scan h j items :
  raises_cleanly (JadwalBentrokRule_scan h j items).
Proof.
  induction items as [|item items IH].
  - apply silent_raises_cleanly, silent_mret.
  - cbn [JadwalBentrokRule_scan].
    apply raises_cleanly_after_silent; [apply silent_getitem|]. intros x.
    apply raises_cleanly_after_silent.
    { destruct (py_eq x h); [|apply silent_mret].
      apply silent_bind; [apply silent_getitem|]. intros; apply silent_mret. }
    intros [|]; [|done].
    apply never_raises_raises_cleanly. intros w. by eexists _, _.
Qed.

(** Whenever one of the program's rules raises, on any record, the world is
    exactly as it was before the call: no log record was emitted. *)
Theorem builtin_rule_raises_cleanly (rule : IValidationRule) (w w' : World)
    (e : exn) :
  builtin rule →
  validate rule w = (Raise e, w') →
  w' = w.
Proof.
  intros [[m ->]|[->| ->]]; simpl.
  - revert w e w'. fold (raises_cleanly (SksLimitRule_validate m)).
    unfold SksLimitRule_validate.
    apply raises_cleanly_after_silent; [apply silent_data_getitem|]. intros v.
    apply raises_cleanly_after_silent; [apply silent_py_le|]. intros [|];
      (apply raises_cleanly_after_silent; [apply silent_data_getitem|]);
      intros a; apply never_raises_raises_cleanly, never_raises_emit_mret.
  - revert w e w'. fold (raises_cleanly PrerequisiteRule_validate).
    unfold PrerequisiteRule_validate.
    apply raises_cleanly_after_silent; [apply silent_missing|].
    intros missing. apply never_raises_raises_cleanly.
    destruct (py_not_list missing); apply never_raises_emit_mret.
  - revert w e w'. fold (raises_cleanly JadwalBentrokRule_validate).
    unfold JadwalBentrokRule_validate.
    apply raises_cleanly_after_silent; [apply silent_data_getitem|]. intros j.
    apply raises_cleanly_after_silent; [apply silent_getitem|]. intros h.
    apply raises_cleanly_after_silent; [apply silent_getitem|]. intros m.
    apply raises_cleanly_after_silent; [apply silent_data_getitem|]. intros t.
    apply raises_cleanly_after_silent; [apply silent_py_iter|]. intros items.
    apply raises_cleanly_before_total; [apply raises_cleanly_scan|].
    intros [b|]; intros w0; by eexists _, _.
Qed.

Lemma builtin_rule_raises_cleanly_witness :
  (JadwalBentrokRule_validate world_junk_before_clash).2 =
  world_junk_before_clash.
Proof.
  apply (builtin_rule_raises_cleanly JadwalBentrokRule
           world_junk_before_clash _ TypeError).
  - unfold builtin. auto.
  - reflexivity.
Defined.

(** ** The service and exceptions, call order and log *)

Lemma loop_raise d rule e lr :
  raises rule d e lr →
  ∀ post es cs,
    RegistrationService_loop (rule :: post) (mkWorld d es cs) =
      (Raise e, mkWorld d (es ++ lr) (cs ++ [class_name rule])).
Proof.
  intros Hr post es cs.
  by erewrite loop_cons_raise by (unfold invoke; simpl; apply Hr).
Qed.

(** The service does not catch: if the rules [pre] return true and the next
    rule raises [e], the service raises [e].  The log then ends with what
    that rule emitted (no closing record is written), the call trace ends
    with that rule, and the rules after it are not invoked. *)
Theorem service_propagates_exception (d : pyval) (pre : list IValidationRule)
    (r : IValidationRule) (e : exn) (lr : list LogRecord) :
  (∀ p, p ∈ pre → returns p d true) →
  raises r d e lr →
  ∃ lpre, ∀ post es cs,
    RegistrationService_validate (mkService (pre ++ r :: post))
      (mkWorld d es cs) =
      (Raise e,
       mkWorld d (es ++ [banner] ++ lpre ++ lr)
         (cs ++ (class_name <$> (pre ++ [r])))).
Proof.
  intros Hpre Hr. destruct (loop_skip d pre Hpre) as [l Hl].
  exists l. intros post es cs.
  rewrite validate_enter. unfold logged. simpl.
  rewrite Hl, (loop_raise d r e lr Hr). rewrite fmap_app. simpl.
  by rewrite <- !app_assoc.
Qed.

Lemma service_propagates_exception_witness :
  ∃ lpre, ∀ post es cs,
    RegistrationService_validate
      (mkService ([SksLimitRule 24] ++ PrerequisiteRule :: post))
      (mkWorld (VDict [("sks", VInt 20)]) es cs) =
      (Raise (KeyError "prasyarat"),
       mkWorld (VDict [("sks", VInt 20)]) (es ++ [banner] ++ lpre ++ [])
         (cs ++ (class_name <$> ([SksLimitRule 24] ++ [PrerequisiteRule])))).
Proof.
  apply (service_propagates_exception (VDict [("sks", VInt 20)])
           [SksLimitRule 24] PrerequisiteRule (KeyError "prasyarat") []).
  - intros p ->%list_elem_of_singleton. eexists. intros es cs. reflexivity.
  - intros es cs. simpl. by rewrite app_nil_r.
Defined.

(** Rules are invoked in list order, each at most once, none skipped: the
    rules invoked by a run are a prefix of the rule list.  The prefix is the
    whole list when the run returns true, and is not empty otherwise.  This
    holds on every record, for rules that keep the interface contract. *)
Theorem invoked_rules_are_a_prefix (rs : list IValidationRule) (w : World) :
  (∀ r, r ∈ rs → observes (validate r)) →
  let run := RegistrationService_validate (mkService rs) w in
  ∃ k : nat,
    (k ≤ length rs)%nat
    ∧ calls run.2 = calls w ++ (class_name <$> take k rs)
    ∧ (run.1 = Return true → k = length rs)
    ∧ (run.1 ≠ Return true → (0 < k)%nat).
Proof.
  intros Hrs run. unfold run. rewrite validate_enter.
  change (calls w) with (calls (logged w [banner])).
  generalize (logged w [banner]). clear run. simpl.
  induction rs as [|r rs IH]; intros w0.
  - exists 0%nat. rewrite loop_nil. simpl. rewrite app_nil_r.
    repeat split; try done; try lia.
  - destruct (Hrs r) with (data w0) as (o & l & Hr); [by left|].
    assert (invoke r w0 =
            (o, mkWorld (data w0) (emitted w0 ++ l)
                  (calls w0 ++ [class_name r]))) as Hinv.
    { unfold invoke. apply Hr. }
    destruct o as [[|]|e].
    + rewrite (loop_cons_true _ _ _ _ Hinv).
      destruct (IH (λ r' H, Hrs r' (list_elem_of_further _ _ _ H))
                  (mkWorld (data w0) (emitted w0 ++ l)
                     (calls w0 ++ [class_name r])))
        as (k & Hk & Hc & Ht & Hf).
      exists (S k). simpl in *. rewrite Hc, <- app_assoc.
      repeat split; try done; try lia. intros H. by rewrite Ht.
    + rewrite (loop_cons_false _ _ _ _ Hinv). exists 1%nat. simpl.
      destruct rs; repeat split; try done; lia.
    + rewrite (loop_cons_raise _ _ _ _ _ Hinv). exists 1%nat. simpl.
      destruct rs; repeat split; try done; lia.
Qed.

Lemma invoked_rules_are_a_prefix_witness :
  ∃ k : nat,
    (k ≤ 3)%nat
    ∧ calls main.2 = [] ++ (class_name <$> take k main_rules)
    ∧ (main.1 = Return true → k = 3%nat)
    ∧ (main.1 ≠ Return true → (0 < k)%nat).
Proof.
  apply (invoked_rules_are_a_prefix main_rules world0).
  apply builtin_all_observe, builtin_main_rules.
Defined.

Lemma loop_closing rs w b w' :
  RegistrationService_loop rs w = (Return b, w') →
  last (emitted w') = Some (closing_record b).
Proof.
  revert w. induction rs as [|r rs IH]; intros w.
  - rewrite loop_nil. intros [= <- <-]. simpl. by rewrite last_snoc.
  - destruct (invoke r w) as [[[|]|e] w1] eqn:Hinv.
    + rewrite (loop_cons_true _ _ _ _ Hinv). apply IH.
    + rewrite (loop_cons_false _ _ _ _ Hinv). intros [= <- <-]. simpl.
      by rewrite last_snoc.
    + by rewrite (loop_cons_raise _ _ _ _ _ Hinv).
Qed.

(** Whatever the rules are, when the service returns, the record it emitted
    last tells the result: "Registrasi berhasil." (INFO) if it returned
    true, "Registrasi gagal." (ERROR) if it returned false. *)
Theorem last_record_tells_result (self : RegistrationService)
    (w w' : World) (b : bool) :
  RegistrationService_validate self w = (Return b, w') →
  last (emitted w') = Some (closing_record b).
Proof. rewrite validate_enter. apply loop_closing. Qed.

Lemma last_record_tells_result_witness :
  last (emitted main.2) = Some failure_error.
Proof.
  apply (last_record_tells_result service world0 main.2 false).
  reflexivity.
Defined.

(** ** The verdict as a function of the rule list *)

Lemma service_verdict rs w :
  (∀ r, r ∈ rs → ∃ b, returns r (data w) b) →
  ∃ b, (RegistrationService_validate (mkService rs) w).1 = Return b
       ∧ (b = true ↔ ∀ r, r ∈ rs → returns r (data w) true).
Proof.
  destruct w as [d es cs]. simpl. intros Hrs.
  destruct (loop_total d rs Hrs) as (b & l & c & H).
  exists b. rewrite validate_enter. unfold logged. simpl.
  by destruct (H (es ++ [banner]) cs) as [-> Hb].
Qed.

(** For rules that each have a verdict on the record, the result of the
    service does not depend on the order of the rules (the log and the
    calls made do). *)
Theorem verdict_independent_of_rule_order (rs rs' : list IValidationRule)
    (w : World) :
  rs ≡ₚ rs' →
  (∀ r, r ∈ rs → ∃ b, returns r (data w) b) →
  (RegistrationService_validate (mkService rs) w).1 =
  (RegistrationService_validate (mkService rs') w).1.
Proof.
  intros Hp Hrs.
  assert (∀ r, r ∈ rs ↔ r ∈ rs') as Hin by (intros r; by rewrite Hp).
  destruct (service_verdict rs w Hrs) as (b & -> & Hb).
  destruct (service_verdict rs' w) as (b' & -> & Hb').
  { intros r Hr. apply Hrs. by apply Hin. }
  f_equal. apply eq_bool_prop_intro.
  rewrite !Is_true_true, Hb, Hb'. split; intros H r Hr; apply H; by apply Hin.
Qed.

Lemma verdict_independent_of_rule_order_witness :
  (RegistrationService_validate service world0).1 =
  (RegistrationService_validate
     (mkService [JadwalBentrokRule; SksLimitRule 24; PrerequisiteRule])
     world0).1.
Proof.
  apply (verdict_independent_of_rule_order main_rules
           [JadwalBentrokRule; SksLimitRule 24; PrerequisiteRule] world0).
  - symmetry.
    apply (Permutation_cons_append [SksLimitRule 24; PrerequisiteRule]
             JadwalBentrokRule).
  - intros r Hr. apply builtin_returns.
    + pose proof builtin_main_rules as H. by eapply Forall_forall in H.
    + exists student_data. reflexivity.
Defined.

(** Running the service over [rs1 ++ rs2] returns true exactly when running
    it over [rs1] and over [rs2] both return true, for rules that each have
    a verdict on the record. *)
Theorem verdict_of_concatenation (rs1 rs2 : list IValidationRule)
    (w : World) :
  (∀ r, r ∈ rs1 ++ rs2 → ∃ b, returns r (data w) b) →
  ((RegistrationService_validate (mkService (rs1 ++ rs2)) w).1 = Return true
   ↔ (RegistrationService_validate (mkService rs1) w).1 = Return true
     ∧ (RegistrationService_validate (mkService rs2) w).1 = Return true).
Proof.
  intros Hrs.
  destruct (service_verdict (rs1 ++ rs2) w Hrs) as (b & -> & Hb).
  destruct (service_verdict rs1 w) as (b1 & -> & Hb1).
  { intros r Hr. apply Hrs, elem_of_app. by left. }
  destruct (service_verdict rs2 w) as (b2 & -> & Hb2).
  { intros r Hr. apply Hrs, elem_of_app. by right. }
  split.
  - intros [= ->]. destruct Hb as [Hb _]. specialize (Hb eq_refl). split.
    + f_equal. apply Hb1. intros r Hr. apply Hb, elem_of_app. by left.
    + f_equal. apply Hb2. intros r Hr. apply Hb, elem_of_app. by right.
  - intros [[= ->] [= ->]]. f_equal. apply Hb.
    intros r [Hr|Hr]%elem_of_app; [by apply Hb1 | by apply Hb2].
Qed.

Lemma verdict_of_concatenation_witness :
  (RegistrationService_validate
     (mkService ([SksLimitRule 24] ++ [PrerequisiteRule; JadwalBentrokRule]))
     world0).1 = Return true
  ↔ (RegistrationService_validate (mkService [SksLimitRule 24]) world0).1
      = Return true
    ∧ (RegistrationService_validate
         (mkService [PrerequisiteRule; JadwalBentrokRule]) world0).1
      = Return true.
Proof.
  apply (verdict_of_concatenation [SksLimitRule 24]
           [PrerequisiteRule; JadwalBentrokRule] world0).
  intros r Hr. apply builtin_returns.
  - pose proof builtin_main_rules as H. by eapply Forall_forall in H.
  - exists student_data. reflexivity.
Defined.

(** ** One log record per rule *)

Lemma builtin_rule_run rule w :
  builtin rule →
  well_formed (data w) →
  ∃ (b : bool) (rec : LogRecord),
    validate rule w = (Return b, logged w [rec])
    ∧ (level rec = INFO ↔ b = true).
Proof.
  intros [[m ->]|[->| ->]] [r Hr]; simpl.
  - rewrite (SksLimitRule_run m w r Hr).
    destruct (bool_decide _); eexists _, _; (split; [reflexivity|done]).
  - rewrite (PrerequisiteRule_run w r Hr).
    destruct (filter _ _); eexists _, _; (split; [reflexivity|done]).
  - rewrite (JadwalBentrokRule_run w r Hr).
    destruct (decide _); eexists _, _; (split; [reflexivity|done]).
Qed.

(** On a well-formed record each of the program's rules emits exactly one
    log record, and the record is at level INFO exactly when the rule
    returns true (otherwise ERROR, or WARNING for the prerequisites). *)
Theorem builtin_rule_emits_one_record (rule : IValidationRule) (w : World) :
  builtin rule →
  well_formed (data w) →
  ∃ (b : bool) (rec : LogRecord),
    validate rule w = (Return b, logged w [rec])
    ∧ (level rec = INFO ↔ b = true).
Proof. apply builtin_rule_run. Qed.

Lemma builtin_rule_emits_one_record_witness :
  ∃ (b : bool) (rec : LogRecord),
    PrerequisiteRule_validate world0 = (Return b, logged world0 [rec])
    ∧ (level rec = INFO ↔ b = true).
Proof.
  apply (builtin_rule_emits_one_record PrerequisiteRule world0).
  - unfold builtin. auto.
  - exists student_data. reflexivity.
Defined.

Lemma loop_log_shape rs w :
  Forall builtin rs →
  well_formed (data w) →
  ∃ (b : bool) (l : list LogRecord) (k : nat),
    (k ≤ length rs)%nat
    ∧ RegistrationService_loop rs w =
        (Return b,
         mkWorld (data w) (emitted w ++ l ++ [closing_record b])
           (calls w ++ (class_name <$> take k rs)))
    ∧ length l = k
    ∧ (b = true → k = length rs).
Proof.
  intros Hrs. revert w. induction Hrs as [|r rs Hr Hrs IH]; intros w Hw.
  - exists true, [], 0%nat. rewrite loop_nil. simpl.
    rewrite app_nil_r. repeat split; try done.
  - destruct (builtin_rule_run r
                (mkWorld (data w) (emitted w) (calls w ++ [class_name r]))
                Hr Hw) as (b & rec & Hrun & _).
    fold (invoke r w) in Hrun. destruct b.
    + rewrite (loop_cons_true _ _ _ _ Hrun).
      destruct (IH (logged (mkWorld (data w) (emitted w)
                              (calls w ++ [class_name r])) [rec]) Hw)
        as (b & l & k & Hk & -> & Hl & Hb).
      exists b, (rec :: l), (S k). simpl. rewrite <- !app_assoc. simpl.
      repeat split; try done; try lia. intros H. by rewrite Hb.
    + rewrite (loop_cons_false _ _ _ _ Hrun).
      exists false, [rec], 1%nat. unfold logged. simpl.
      rewrite <- !app_assoc. simpl.
      destruct rs; repeat split; try done; lia.
Qed.

(** On a well-formed record, with the program's rules, a run of the service
    emits the banner, then one record for each rule it invoked, then one
    closing record that tells the result; so it emits two records more than
    it invoked rules, and it invoked all rules if the result is true. *)
Theorem service_log_shape (rs : list IValidationRule) (w : World) :
  Forall builtin rs →
  well_formed (data w) →
  ∃ (b : bool) (l : list LogRecord) (k : nat),
    (k ≤ length rs)%nat
    ∧ RegistrationService_validate (mkService rs) w =
        (Return b,
         mkWorld (data w)
           (emitted w ++ [banner] ++ l ++ [closing_record b])
           (calls w ++ (class_name <$> take k rs)))
    ∧ length l = k
    ∧ (b = true → k = length rs).
Proof.
  intros Hrs Hw. rewrite validate_enter. cbn [rules].
  destruct (loop_log_shape rs (logged w [banner]) Hrs Hw)
    as (b & l & k & Hk & -> & Hl & Hb).
  exists b, l, k. simpl. rewrite <- !app_assoc. done.
Qed.

Lemma service_log_shape_witness :
  ∃ (b : bool) (l : list LogRecord) (k : nat),
    (k ≤ 3)%nat
    ∧ main =
        (Return b,
         mkWorld (to_py student_data)
           ([] ++ [banner] ++ l ++ [closing_record b])
           ([] ++ (class_name <$> take k main_rules)))
    ∧ length l = k
    ∧ (b = true → k = 3%nat).
Proof.
  apply (service_log_shape main_rules world0).
  - apply builtin_main_rules.
  - exists student_data. reflexivity.
Defined.

(** ** Monotonicity of the rules *)

Lemma filter_not_in_nil (p l : list string) :
  filter (λ c, c ∉ l) p = [] ↔ ∀ c, c ∈ p → c ∈ l.
Proof.
  split.
  - intros Hnil c Hc. destruct (decide (c ∈ l)) as [|Hn]; [done|].
    assert (c ∈ filter (λ c, c ∉ l) p) as Hin
      by (by apply list_elem_of_filter).
    rewrite Hnil in Hin. by apply elem_of_nil in Hin.
  - intros Hall. destruct (filter _ _) as [|c cs] eqn:Hf; [done|].
    assert (c ∈ filter (λ c, c ∉ l) p) as [Hn Hc]%list_elem_of_filter
      by (rewrite Hf; by left).
    destruct Hn. by apply Hall.
Qed.







(** ** What the program's pipeline accepts *)

Lemma returns_unique rule d b b' :
  returns rule d b → returns rule d b' → b = b'.
Proof. intros [l H] [l' H']. specialize (H [] []). rewrite H' in H. congruence. Qed.

Lemma returns_true_iff rule d (P : Prop) `{!Decision P} :
  returns rule d (bool_decide P) → (returns rule d true ↔ P).
Proof.
  intros H. split.
  - intros Ht. apply (bool_decide_eq_true_1 P).
    by apply (returns_unique rule d).
  - intros HP. by rewrite bool_decide_eq_true_2 in H.
Qed.

(** The pipeline the program builds, [SksLimitRule(24)], [PrerequisiteRule],
    [JadwalBentrokRule], accepts a well-formed record exactly when its
    credit load is at most 24, every prerequisite is among the passed
    courses and no taken slot has the day and time of the requested slot;
    it rejects it (returns false, never raises) otherwise. *)
Theorem main_rules_accept_iff (w : World) (r : StudentData) :
  as_record (data w) = Some r →
  let accepted :=
    (sks r ≤ 24)%Z
    ∧ (∀ c, c ∈ prasyarat r → c ∈ sudah_lulus r)
    ∧ ¬ ∃ t, t ∈ jadwal_terambil r ∧ conflict (jadwal r) t in
  ((RegistrationService_validate service w).1 = Return true ↔ accepted)
  ∧ ((RegistrationService_validate service w).1 = Return false ↔ ¬ accepted).
Proof.
  intros Hr accepted.
  destruct (service_verdict main_rules w) as (b & Hrun & Hb).
  { intros rule Hin. apply builtin_returns; [|by exists r].
    pose proof builtin_main_rules as H. by eapply Forall_forall in H. }
  unfold service. rewrite Hrun.
  assert (b = true ↔ accepted) as Hacc.
  { rewrite Hb. unfold accepted.
    rewrite <- (returns_true_iff _ _ _ (SksLimitRule_returns 24 _ r Hr)).
    rewrite <- filter_not_in_nil.
    rewrite <- (returns_true_iff _ _ _ (PrerequisiteRule_returns _ r Hr)).
    rewrite <- Exists_exists.
    rewrite <- (returns_true_iff _ _ _ (JadwalBentrokRule_returns _ r Hr)).
    unfold main_rules. split.
    - intros H. repeat split; apply H; set_unfold; tauto.
    - intros (H1 & H2 & H3) rule Hin. set_unfold.
      destruct Hin as [->|[->|[->|[]]]]; done. }
  split.
  - rewrite <- Hacc. split; [by intros [= ->] | by intros ->].
  - rewrite <- Hacc. by destruct b.
Qed.

Lemma main_rules_accept_iff_witness :
  (RegistrationService_validate service world0).1 = Return false.
Proof.
  destruct (main_rules_accept_iff world0 student_data eq_refl) as [_ Hrej].
  apply Hrej. intros (_ & Hpre & _).
  assert ("Struktur Data" ∈ ["Algoritma"]) as Hin
    by (apply Hpre; simpl; by right; left).
  apply list_elem_of_singleton in Hin. discriminate Hin.
Defined.
